(** * Multi-platform social media posting API: a shallow embedding

    The development follows the Python sources:
    - [config.py]                 (section [Config])
    - [platforms/base_poster.py]  (section [BasePoster])
    - [platforms/*_api.py]        (one section per adapter)
    - [main.py]                   (section [Main])

    Python objects are records, [None]-able strings are [option string],
    untyped JSON / dict values are [pyval], ordered dicts are association
    lists.  Code that mutates [self], talks to the network or raises is
    written in a state-and-exception monad in which, as in Python, the
    mutations made before an exception is raised survive the exception. *)

From Stdlib Require Import String Ascii List ZArith Bool Lia.
Import ListNotations.
Local Open Scope string_scope.
Local Open Scope Z_scope.

Set Implicit Arguments.

(** ** Python values *)

(** Values decoded from JSON or stored in untyped dicts.  JSON numbers are
    kept as integers. *)
#[warnings="-register-all"]
Inductive pyval : Type :=
| PNone
| PBool (b : bool)
| PInt (z : Z)
| PStr (s : string)
| PList (l : list pyval)
| PDict (d : list (string * pyval)).

(** A Python [dict] with string keys, in insertion order. *)
Definition dict := list (string * pyval).

(** [raise Exception(msg)]: only [str(e)] is ever observed by the program. *)
Definition exn := string.

Definition str_is_empty (s : string) : bool :=
  match s with EmptyString => true | _ => false end.

(** Python truthiness, [bool(v)]. *)
Definition truthy (v : pyval) : bool :=
  match v with
  | PNone => false
  | PBool b => b
  | PInt z => negb (z =? 0)
  | PStr s => negb (str_is_empty s)
  | PList l => match l with [] => false | _ => true end
  | PDict d => match d with [] => false | _ => true end
  end.

(** Truthiness of an [Optional[str]]. *)
Definition truthy_str (o : option string) : bool :=
  match o with Some s => negb (str_is_empty s) | None => false end.

(** Truthiness of an [Optional[List[str]]]. *)
Definition truthy_list (A : Type) (o : option (list A)) : bool :=
  match o with Some (_ :: _) => true | _ => false end.

(** [a or b] *)
Definition py_or (a b : pyval) : pyval := if truthy a then a else b.
Definition or_str (a b : option string) : option string :=
  if truthy_str a then a else b.

Definition of_opt (o : option string) : pyval :=
  match o with Some s => PStr s | None => PNone end.

(** [x is not None] *)
Definition is_not_None (A : Type) (o : option A) : bool :=
  match o with Some _ => true | None => false end.

(** [d.get(k)] on an association list: first binding of [k]. *)
Fixpoint assoc (A : Type) (k : string) (d : list (string * A)) : option A :=
  match d with
  | [] => None
  | (k', v) :: d' => if String.eqb k k' then Some v else assoc k d'
  end.

(** [k in d] *)
Definition mem_key (A : Type) (k : string) (d : list (string * A)) : bool :=
  is_not_None (assoc k d).

(** [d[k] = v]: overwrite in place, or append a new key. *)
Fixpoint dict_set (k : string) (v : pyval) (d : dict) : dict :=
  match d with
  | [] => [(k, v)]
  | (k', v') :: d' =>
      if String.eqb k k' then (k, v) :: d' else (k', v') :: dict_set k v d'
  end.

(** [d.get(k)] and [d.get(k, default)] *)
Definition dict_get (k : string) (d : dict) : pyval :=
  match assoc k d with Some v => v | None => PNone end.
Definition dict_get_default (k : string) (dflt : pyval) (d : dict) : pyval :=
  match assoc k d with Some v => v | None => dflt end.

(** [type(v).__name__] *)
Definition type_name (v : pyval) : string :=
  match v with
  | PNone => "NoneType"
  | PBool _ => "bool"
  | PInt _ => "int"
  | PStr _ => "str"
  | PList _ => "list"
  | PDict _ => "dict"
  end.

(** ** Strings *)

(** [needle in hay] for Python strings. *)
Fixpoint str_contains (needle hay : string) : bool :=
  String.prefix needle hay
  || match hay with
     | EmptyString => false
     | String _ hay' => str_contains needle hay'
     end.

Definition newline : ascii := ascii_of_nat 10.

(** [text.split('\n', 1)]: at most one split, at the first line feed. *)
Fixpoint split_first_newline (text : string) : list string :=
  match text with
  | EmptyString => [EmptyString]
  | String c rest =>
      if Ascii.eqb c newline then [EmptyString; rest]
      else match split_first_newline rest with
           | [] => [String c EmptyString]
           | hd :: tl => String c hd :: tl
           end
  end.

(** [s[:n]] *)
Fixpoint str_take (n : nat) (s : string) : string :=
  match n, s with
  | O, _ => EmptyString
  | S n', String c s' => String c (str_take n' s')
  | S _, EmptyString => EmptyString
  end.

(** ** The state-and-exception monad

    A computation over a state [S] returns the new state together with
    either the message of the exception it raised or its result. *)

Definition M (S A : Type) : Type := S -> S * (exn + A).

Definition ret (S A : Type) (a : A) : M S A := fun s => (s, inr a).
Definition raise (S A : Type) (e : exn) : M S A := fun s => (s, inl e).

Definition bind (S A B : Type) (m : M S A) (k : A -> M S B) : M S B :=
  fun s =>
    match m s with
    | (s', inl e) => (s', inl e)
    | (s', inr a) => k a s'
    end.

(** [try: m  except Exception as e: h e] *)
Definition try_except (S A : Type) (m : M S A) (h : exn -> M S A) : M S A :=
  fun s =>
    match m s with
    | (s', inl e) => h e s'
    | (s', inr a) => (s', inr a)
    end.

Definition gets (S A : Type) (f : S -> A) : M S A := fun s => (s, inr (f s)).
Definition modify (S : Type) (f : S -> S) : M S unit := fun s => (f s, inr tt).

(** Run a computation over a component [T] of the state [S]. *)
Definition zoom (S T A : Type) (get : S -> T) (set : T -> S -> S)
    (m : M T A) : M S A :=
  fun s => let '(t', r) := m (get s) in (set t' s, r).

Declare Scope py_scope.
Delimit Scope py_scope with py.
Notation "x <- m ;; k" := (bind m (fun x => k))
  (at level 61, m at next level, right associativity) : py_scope.
Notation "m ;; k" := (bind m (fun _ => k))
  (at level 61, right associativity) : py_scope.
Notation "'TRY' m 'EXCEPT' e => h" := (try_except m (fun e => h))
  (at level 61, m at level 60, e name, h at level 60) : py_scope.
Local Open Scope py_scope.

Arguments ret {S A} a.
Arguments raise {S A} e.

(** ** The world outside the process

    [os.environ], and the network as a transcript: every request the
    program sends is recorded in [sent] and answered by the next entry of
    [pending], which is either the exception aiohttp raises for it or the
    response received.  When the transcript is exhausted the connection
    fails. *)

Record response : Type := {
  status : Z;
  header : string -> option string;     (* [response.headers.get(name)] *)
  json : exn + pyval;                   (* [await response.json()] *)
  content : exn + string                (* [await response.read()] *)
}.

Inductive payload : Type :=
| NoBody
| FormData (d : dict)                   (* [data=dict] *)
| JsonBody (v : pyval)                  (* [json=...] *)
| RawBody (b : string).                 (* [data=bytes] *)

Record request : Type := {
  method : string;
  url : string;
  params : dict;
  headers : list (string * string);
  body : payload
}.

Record Ctx : Type := {
  environ : list (string * string);
  pending : list (exn + response);
  sent : list request
}.

Definition connection_error : exn := "Cannot connect to host".

(** What aiohttp raises, before anything is sent, when the URL it is
    given is [None] (the [TypeError] of [yarl.URL]). *)
Definition invalid_url : exn := "Constructor parameter should be str".

(** [async with session.<method>(...) as response] *)
Definition http (r : request) : M Ctx response :=
  fun c =>
    let c' rest := {| environ := environ c; pending := rest;
                      sent := sent c ++ [r] |} in
    match pending c with
    | [] => (c' [], inl connection_error)
    | answer :: rest => (c' rest, answer)
    end.

(** [os.getenv(name)] *)
Definition getenv (name : string) : M Ctx (option string) :=
  gets (fun c => assoc name (environ c)).

(** [await response.json()] *)
Definition json_of (S : Type) (r : response) : M S pyval :=
  match json r with inl e => raise e | inr v => ret v end.

(** [v.get(k)] and [v.get(k, default)] on a value that need not be a dict. *)
Definition attribute_error (v : pyval) (attr : string) : exn :=
  "'" ++ type_name v ++ "' object has no attribute '" ++ attr ++ "'".

Definition py_get (S : Type) (v : pyval) (k : string) : M S pyval :=
  match v with
  | PDict d => ret (dict_get k d)
  | _ => raise (attribute_error v "get")
  end.

Definition py_get_default (S : Type) (v : pyval) (k : string) (dflt : pyval)
    : M S pyval :=
  match v with
  | PDict d => ret (dict_get_default k dflt d)
  | _ => raise (attribute_error v "get")
  end.

(** [response.status in [...]] *)
Definition status_in (r : response) (codes : list Z) : bool :=
  existsb (Z.eqb (status r)) codes.

(** What Python itself decides and this development does not compute:
    [repr] of a value that is not a string, as f-strings print it. *)
Class Runtime : Type := {
  py_repr : pyval -> string
}.

(** [f"{v}"] *)
Definition fmt `{Runtime} (v : pyval) : string :=
  match v with PStr s => s | _ => py_repr v end.

(** [f"{tok}"] for an [Optional[str]] *)
Definition fmt_opt (o : option string) : string :=
  match o with Some s => s | None => "None" end.

(** ** platforms/base_poster.py *)

Record BasePoster : Type := {
  platform_name : string;
  access_token : option string;
  api_key : option string;
  api_secret : option string;
  authenticated : bool
}.

(** [BasePoster.__init__] *)
Definition BasePoster_init (name : string) : BasePoster :=
  {| platform_name := name; access_token := None; api_key := None;
     api_secret := None; authenticated := false |}.

Definition with_access_token (v : option string) (b : BasePoster) :=
  {| platform_name := platform_name b; access_token := v;
     api_key := api_key b; api_secret := api_secret b;
     authenticated := authenticated b |}.
Definition with_api_key (v : option string) (b : BasePoster) :=
  {| platform_name := platform_name b; access_token := access_token b;
     api_key := v; api_secret := api_secret b;
     authenticated := authenticated b |}.
Definition with_api_secret (v : option string) (b : BasePoster) :=
  {| platform_name := platform_name b; access_token := access_token b;
     api_key := api_key b; api_secret := v;
     authenticated := authenticated b |}.
Definition with_authenticated (v : bool) (b : BasePoster) :=
  {| platform_name := platform_name b; access_token := access_token b;
     api_key := api_key b; api_secret := api_secret b;
     authenticated := v |}.

(** Ghost record of the adapter methods entered, in order. *)
Inductive call : Type :=
| CreatePost (platform : string)
| Authenticate (platform : string).

(** What a method of an adapter of class [O] runs on: the object itself,
    the outside world and the ghost call record. *)
Record Local (O : Type) : Type := {
  self : O;
  lctx : Ctx;
  lcalls : list call
}.
Arguments Build_Local {O} _ _ _.

Section Methods.
Context {O : Type}.

Definition with_self (f : O -> O) (l : Local O) : Local O :=
  {| self := f (self l); lctx := lctx l; lcalls := lcalls l |}.
Definition with_lctx (c : Ctx) (l : Local O) : Local O :=
  {| self := self l; lctx := c; lcalls := lcalls l |}.

(** [self.field] *)
Definition attr (A : Type) (f : O -> A) : M (Local O) A :=
  gets (fun l => f (self l)).
(** [self.field = v] *)
Definition assign (f : O -> O) : M (Local O) unit := modify (with_self f).
(** Anything that only touches the outside world. *)
Definition io (A : Type) (m : M Ctx A) : M (Local O) A :=
  zoom (@lctx O) with_lctx m.
(** Ghost: record that a method was entered. *)
Definition enter (c : call) : M (Local O) unit :=
  modify (fun l => {| self := self l; lctx := lctx l;
                      lcalls := lcalls l ++ [c] |}).
End Methods.

(** The subclass-independent part of an adapter object. *)
Class PosterClass (O : Type) : Type := {
  base : O -> BasePoster;
  with_base : (BasePoster -> BasePoster) -> O -> O
}.

Section PosterMethods.
Context {O : Type} `{PosterClass O}.

Definition self_access_token : M (Local O) (option string) :=
  attr (fun o => access_token (base o)).
Definition self_authenticated : M (Local O) bool :=
  attr (fun o => authenticated (base o)).
Definition self_api_key : M (Local O) (option string) :=
  attr (fun o => api_key (base o)).
Definition self_api_secret : M (Local O) (option string) :=
  attr (fun o => api_secret (base o)).
Definition set_access_token (v : option string) : M (Local O) unit :=
  assign (with_base (with_access_token v)).
Definition set_api_key (v : option string) : M (Local O) unit :=
  assign (with_base (with_api_key v)).
Definition set_api_secret (v : option string) : M (Local O) unit :=
  assign (with_base (with_api_secret v)).
Definition set_authenticated (v : bool) : M (Local O) unit :=
  assign (with_base (with_authenticated v)).
End PosterMethods.

Definition GET (u : string) (ps : dict) (hs : list (string * string))
    : request :=
  {| method := "GET"; url := u; params := ps; headers := hs;
     body := NoBody |}.
Definition POST (u : string) (ps : dict) (hs : list (string * string))
    (b : payload) : request :=
  {| method := "POST"; url := u; params := ps; headers := hs;
     body := b |}.

(** ** platforms/facebook_api.py *)

Module FacebookPoster.

Record t : Type := {
  super : BasePoster;
  graph_api_url : string;
  page_id : pyval
}.

#[global] Instance poster : PosterClass t := {|
  base := super;
  with_base f o := {| super := f (super o);
                      graph_api_url := graph_api_url o;
                      page_id := page_id o |}
|}.

Definition with_page_id (v : pyval) (o : t) : t :=
  {| super := super o; graph_api_url := graph_api_url o; page_id := v |}.

(** [__init__] *)
Definition init (env : list (string * string)) : t :=
  {| super := BasePoster_init "facebook";
     graph_api_url := "https://graph.facebook.com/v18.0";
     page_id := of_opt (assoc "FACEBOOK_PAGE_ID" env) |}.

Definition authenticate `{Runtime}
    (access_token api_key api_secret : option string)
    (additional_params : option dict) : M (Local t) dict :=
  enter (Authenticate "facebook") ;;
  TRY
    (env_token <- io (getenv "FACEBOOK_ACCESS_TOKEN") ;;
     set_access_token (or_str access_token env_token) ;;
     (let from_env :=
        env_page <- io (getenv "FACEBOOK_PAGE_ID") ;;
        cur <- attr page_id ;;
        assign (with_page_id (py_or cur (of_opt env_page))) in
      match additional_params with
      | Some ap =>
          if truthy (PDict ap) && mem_key "page_id" ap
          then assign (with_page_id (dict_get "page_id" ap))
          else from_env
      | None => from_env
      end) ;;
     token <- self_access_token ;;
     if negb (truthy_str token)
     then raise "Facebook access token is required"
     else
       api <- attr graph_api_url ;;
       response <- io (http (GET (api ++ "/me")
                                 [("access_token", of_opt token)] [])) ;;
       if status response =? 200
       then
         user_data <- json_of response ;;
         set_authenticated true ;;
         user_id <- py_get user_data "id" ;;
         user_name <- py_get user_data "name" ;;
         ret [("authenticated", PBool true);
              ("user_id", user_id);
              ("user_name", user_name)]
       else
         error_data <- json_of response ;;
         raise ("Authentication failed: " ++ fmt error_data))
  EXCEPT e =>
    (set_authenticated false ;;
     raise ("Facebook authentication error: " ++ e)).

(** Lines 86-105 of [create_post]: the form fields of the feed request. *)
Definition post_data (text : string) (token : option string)
    (media_urls : option (list string)) (schedule_time : option string)
    : dict :=
  let post_data := [("message", PStr text);
                    ("access_token", of_opt token)] in
  let post_data :=
    match media_urls with
    | Some [] | None => post_data
    | Some [u] => dict_set "link" (PStr u) post_data
    | Some urls => dict_set "attached_media" (PList (map PStr urls)) post_data
    end in
  match schedule_time with
  | Some st =>
      if negb (str_is_empty st)
      then dict_set "scheduled_publish_time" (PStr st)
             (dict_set "published" (PBool false) post_data)
      else post_data
  | None => post_data
  end.

Definition create_post `{Runtime} (text : string)
    (media_urls : option (list string)) (schedule_time : option string)
    : M (Local t) dict :=
  enter (CreatePost "facebook") ;;
  TRY
    (authed <- self_authenticated ;;
     (if negb authed
      then authenticate None None None None ;; ret tt
      else ret tt) ;;
     page <- attr page_id ;;
     let endpoint := if truthy page then fmt page ++ "/feed"
                     else "me/feed" in
     token <- self_access_token ;;
     api <- attr graph_api_url ;;
     response <- io (http (POST (api ++ "/" ++ endpoint) [] []
                             (FormData (post_data text token media_urls
                                                  schedule_time)))) ;;
     if status_in response [200; 201]
     then
       result <- json_of response ;;
       id <- py_get result "id" ;;
       ret [("post_id", id); ("success", PBool true);
            ("platform", PStr "facebook")]
     else
       error_data <- json_of response ;;
       raise ("Post failed: " ++ fmt error_data))
  EXCEPT e => raise ("Facebook post error: " ++ e).

End FacebookPoster.

(** ** platforms/instagram_api.py

    [_create_media_container] and [_publish_media_container] read [self]
    and talk to the provider; they are taken as given. *)

Module InstagramPoster.

Record t : Type := {
  super : BasePoster;
  graph_api_url : string;
  instagram_account_id : pyval
}.

#[global] Instance poster : PosterClass t := {|
  base := super;
  with_base f o := {| super := f (super o);
                      graph_api_url := graph_api_url o;
                      instagram_account_id := instagram_account_id o |}
|}.

Definition with_instagram_account_id (v : pyval) (o : t) : t :=
  {| super := super o; graph_api_url := graph_api_url o;
     instagram_account_id := v |}.

Class Helpers : Type := {
  _create_media_container : t -> string -> string -> M Ctx pyval;
  _publish_media_container : t -> pyval -> M Ctx pyval
}.

Definition init (env : list (string * string)) : t :=
  {| super := BasePoster_init "instagram";
     graph_api_url := "https://graph.facebook.com/v18.0";
     instagram_account_id := of_opt (assoc "INSTAGRAM_ACCOUNT_ID" env) |}.

Definition authenticate `{Runtime}
    (access_token api_key api_secret : option string)
    (additional_params : option dict) : M (Local t) dict :=
  enter (Authenticate "instagram") ;;
  TRY
    (env_token <- io (getenv "INSTAGRAM_ACCESS_TOKEN") ;;
     set_access_token (or_str access_token env_token) ;;
     (let from_env :=
        env_id <- io (getenv "INSTAGRAM_ACCOUNT_ID") ;;
        cur <- attr instagram_account_id ;;
        assign (with_instagram_account_id (py_or cur (of_opt env_id))) in
      match additional_params with
      | Some ap =>
          if truthy (PDict ap) && mem_key "instagram_account_id" ap
          then assign (with_instagram_account_id
                         (dict_get "instagram_account_id" ap))
          else from_env
      | None => from_env
      end) ;;
     token <- self_access_token ;;
     account <- attr instagram_account_id ;;
     if negb (truthy_str token) || negb (truthy account)
     then raise "Instagram access token and account ID are required"
     else
       api <- attr graph_api_url ;;
       response <- io (http (GET (api ++ "/" ++ fmt account)
                                 [("fields", PStr "id,username,account_type");
                                  ("access_token", of_opt token)] [])) ;;
       if status response =? 200
       then
         account_data <- json_of response ;;
         set_authenticated true ;;
         account_id <- py_get account_data "id" ;;
         username <- py_get account_data "username" ;;
         account_type <- py_get account_data "account_type" ;;
         ret [("authenticated", PBool true);
              ("account_id", account_id);
              ("username", username);
              ("account_type", account_type)]
       else
         error_data <- json_of response ;;
         raise ("Authentication failed: " ++ fmt error_data))
  EXCEPT e =>
    (set_authenticated false ;;
     raise ("Instagram authentication error: " ++ e)).

Definition create_post `{Runtime} `{Helpers} (text : string)
    (media_urls : option (list string)) (schedule_time : option string)
    : M (Local t) dict :=
  enter (CreatePost "instagram") ;;
  TRY
    (authed <- self_authenticated ;;
     (if negb authed
      then authenticate None None None None ;; ret tt
      else ret tt) ;;
     match media_urls with
     | Some (first :: _) =>
         o <- attr (fun o => o) ;;
         container_id <- io (_create_media_container o text first) ;;
         o <- attr (fun o => o) ;;
         post_id <- io (_publish_media_container o container_id) ;;
         ret [("post_id", post_id); ("success", PBool true);
              ("platform", PStr "instagram")]
     | _ => raise "Instagram requires at least one media URL"
     end)
  EXCEPT e => raise ("Instagram post error: " ++ e).

End InstagramPoster.

(** ** platforms/tiktok_api.py

    [_initialize_upload] (its result dict as the pair of its two entries),
    [_upload_video] and [_publish_video] are taken as given. *)

Module TikTokPoster.

Record t : Type := {
  super : BasePoster;
  api_url : string;
  client_key : option string;
  client_secret : option string
}.

#[global] Instance poster : PosterClass t := {|
  base := super;
  with_base f o := {| super := f (super o); api_url := api_url o;
                      client_key := client_key o;
                      client_secret := client_secret o |}
|}.

Definition with_client_key (v : option string) (o : t) : t :=
  {| super := super o; api_url := api_url o; client_key := v;
     client_secret := client_secret o |}.
Definition with_client_secret (v : option string) (o : t) : t :=
  {| super := super o; api_url := api_url o; client_key := client_key o;
     client_secret := v |}.

Class Helpers : Type := {
  _initialize_upload : t -> M Ctx (pyval * pyval);
  _upload_video : t -> pyval -> string -> M Ctx bool;
  _publish_video : t -> pyval -> string -> option string -> M Ctx pyval
}.

Definition init (env : list (string * string)) : t :=
  {| super := BasePoster_init "tiktok";
     api_url := "https://open.tiktokapis.com/v2";
     client_key := assoc "TIKTOK_CLIENT_KEY" env;
     client_secret := assoc "TIKTOK_CLIENT_SECRET" env |}.

Definition authenticate `{Runtime}
    (access_token api_key api_secret : option string)
    (additional_params : option dict) : M (Local t) dict :=
  enter (Authenticate "tiktok") ;;
  TRY
    (env_token <- io (getenv "TIKTOK_ACCESS_TOKEN") ;;
     set_access_token (or_str access_token env_token) ;;
     key <- attr client_key ;;
     assign (with_client_key (or_str api_key key)) ;;
     secret <- attr client_secret ;;
     assign (with_client_secret (or_str api_secret secret)) ;;
     token <- self_access_token ;;
     if negb (truthy_str token)
     then raise "TikTok access token is required"
     else
       api <- attr api_url ;;
       response <- io (http (GET (api ++ "/user/info/")
                                 [("fields",
                                   PStr "open_id,union_id,avatar_url,display_name")]
                                 [("Authorization", "Bearer " ++ fmt_opt token);
                                  ("Content-Type", "application/json")])) ;;
       if status response =? 200
       then
         result <- json_of response ;;
         data <- py_get_default result "data" (PDict []) ;;
         user_data <- py_get_default data "user" (PDict []) ;;
         set_authenticated true ;;
         open_id <- py_get user_data "open_id" ;;
         display_name <- py_get user_data "display_name" ;;
         ret [("authenticated", PBool true);
              ("open_id", open_id);
              ("display_name", display_name)]
       else
         error_data <- json_of response ;;
         raise ("Authentication failed: " ++ fmt error_data))
  EXCEPT e =>
    (set_authenticated false ;;
     raise ("TikTok authentication error: " ++ e)).

Definition create_post `{Runtime} `{Helpers} (text : string)
    (media_urls : option (list string)) (schedule_time : option string)
    : M (Local t) dict :=
  enter (CreatePost "tiktok") ;;
  TRY
    (authed <- self_authenticated ;;
     (if negb authed
      then authenticate None None None None ;; ret tt
      else ret tt) ;;
     match media_urls with
     | Some (video_url :: _) =>
         o <- attr (fun o => o) ;;
         upload_data <- io (_initialize_upload o) ;;
         let '(upload_url, publish_id) := upload_data in
         o <- attr (fun o => o) ;;
         io (_upload_video o upload_url video_url) ;;
         o <- attr (fun o => o) ;;
         post_id <- io (_publish_video o publish_id text schedule_time) ;;
         ret [("post_id", post_id); ("success", PBool true);
              ("platform", PStr "tiktok")]
     | _ => raise "TikTok requires a video URL"
     end)
  EXCEPT e => raise ("TikTok post error: " ++ e).

End TikTokPoster.

(** ** platforms/x_api.py

    [_upload_media] and [_get_oauth_header] (which reads the clock and a
    random nonce) are taken as given. *)

Module XPoster.

Record t : Type := {
  super : BasePoster;
  api_url : string;
  bearer_token : option string;
  access_token_secret : option string
}.

#[global] Instance poster : PosterClass t := {|
  base := super;
  with_base f o := {| super := f (super o); api_url := api_url o;
                      bearer_token := bearer_token o;
                      access_token_secret := access_token_secret o |}
|}.

Definition with_bearer_token (v : option string) (o : t) : t :=
  {| super := super o; api_url := api_url o; bearer_token := v;
     access_token_secret := access_token_secret o |}.
Definition with_access_token_secret (v : option string) (o : t) : t :=
  {| super := super o; api_url := api_url o;
     bearer_token := bearer_token o; access_token_secret := v |}.

Class Helpers : Type := {
  _upload_media : t -> string -> M Ctx pyval;
  _get_oauth_header : t -> string -> string -> M Ctx string
}.

Definition init (env : list (string * string)) : t :=
  {| super := with_api_secret (assoc "X_API_SECRET" env)
                (with_api_key (assoc "X_API_KEY" env)
                   (BasePoster_init "x"));
     api_url := "https://api.twitter.com/2";
     bearer_token := assoc "X_BEARER_TOKEN" env;
     access_token_secret := None |}.

Definition bearer_headers (bearer : option string)
    : list (string * string) :=
  if truthy_str bearer
  then [("Authorization", "Bearer " ++ fmt_opt bearer)]
  else [].

Definition authenticate `{Runtime}
    (access_token api_key api_secret : option string)
    (additional_params : option dict) : M (Local t) dict :=
  enter (Authenticate "x") ;;
  TRY
    (env_token <- io (getenv "X_ACCESS_TOKEN") ;;
     set_access_token (or_str access_token env_token) ;;
     env_secret <- io (getenv "X_ACCESS_TOKEN_SECRET") ;;
     assign (with_access_token_secret env_secret) ;;
     key <- self_api_key ;;
     set_api_key (or_str api_key key) ;;
     secret <- self_api_secret ;;
     set_api_secret (or_str api_secret secret) ;;
     env_bearer <- io (getenv "X_BEARER_TOKEN") ;;
     cur <- attr bearer_token ;;
     assign (with_bearer_token (or_str cur env_bearer)) ;;
     bearer <- attr bearer_token ;;
     token <- self_access_token ;;
     token_secret <- attr access_token_secret ;;
     if negb (truthy_str bearer)
        && negb (truthy_str token && truthy_str token_secret)
     then raise "X API requires bearer token or access tokens"
     else
       api <- attr api_url ;;
       response <- io (http (GET (api ++ "/users/me") []
                                 (bearer_headers bearer))) ;;
       if status response =? 200
       then
         result <- json_of response ;;
         user_data <- py_get_default result "data" (PDict []) ;;
         set_authenticated true ;;
         user_id <- py_get user_data "id" ;;
         username <- py_get user_data "username" ;;
         name <- py_get user_data "name" ;;
         ret [("authenticated", PBool true);
              ("user_id", user_id);
              ("username", username);
              ("name", name)]
       else
         error_data <- json_of response ;;
         raise ("Authentication failed: " ++ fmt error_data))
  EXCEPT e =>
    (set_authenticated false ;;
     raise ("X authentication error: " ++ e)).

(** [for media_url in media_urls[:4]: media_ids.append(await
    self._upload_media(media_url))] *)
Fixpoint upload_all `{Helpers} (o : t) (urls : list string)
    (media_ids : list pyval) : M Ctx (list pyval) :=
  match urls with
  | [] => ret media_ids
  | media_url :: rest =>
      media_id <- _upload_media o media_url ;;
      upload_all o rest (media_ids ++ [media_id])%list
  end.

Definition create_post `{Runtime} `{Helpers} (text : string)
    (media_urls : option (list string)) (schedule_time : option string)
    : M (Local t) dict :=
  enter (CreatePost "x") ;;
  TRY
    (authed <- self_authenticated ;;
     (if negb authed
      then authenticate None None None None ;; ret tt
      else ret tt) ;;
     let tweet_data := [("text", PStr text)] in
     tweet_data <-
       match media_urls with
       | Some ((_ :: _) as urls) =>
           o <- attr (fun o => o) ;;
           media_ids <- io (upload_all o (firstn 4 urls) []) ;;
           if truthy (PList media_ids)
           then ret (dict_set "media"
                       (PDict [("media_ids", PList media_ids)]) tweet_data)
           else ret tweet_data
       | _ => ret tweet_data
       end ;;
     let headers := [("Content-Type", "application/json")] in
     bearer <- attr bearer_token ;;
     token <- self_access_token ;;
     api <- attr api_url ;;
     headers <-
       (if truthy_str bearer
        then ret (List.app headers
                    [("Authorization", "Bearer " ++ fmt_opt bearer)])
        else if truthy_str token
        then
          o <- attr (fun o => o) ;;
          oauth <- io (_get_oauth_header o "POST" (api ++ "/tweets")) ;;
          ret (List.app headers [("Authorization", oauth)])
        else ret headers) ;;
     response <- io (http (POST (api ++ "/tweets") [] headers
                             (JsonBody (PDict tweet_data)))) ;;
     if status_in response [200; 201]
     then
       result <- json_of response ;;
       data <- py_get_default result "data" (PDict []) ;;
       id <- py_get data "id" ;;
       ret [("post_id", id); ("success", PBool true);
            ("platform", PStr "x")]
     else
       error_data <- json_of response ;;
       raise ("Tweet posting failed: " ++ fmt error_data))
  EXCEPT e => raise ("X post error: " ++ e).

End XPoster.

(** ** platforms/threads_api.py

    [_create_media_container] and [_publish_container] are taken as
    given. *)

Module ThreadsPoster.

Record t : Type := {
  super : BasePoster;
  graph_api_url : string;
  threads_user_id : pyval
}.

#[global] Instance poster : PosterClass t := {|
  base := super;
  with_base f o := {| super := f (super o);
                      graph_api_url := graph_api_url o;
                      threads_user_id := threads_user_id o |}
|}.

Definition with_threads_user_id (v : pyval) (o : t) : t :=
  {| super := super o; graph_api_url := graph_api_url o;
     threads_user_id := v |}.

Class Helpers : Type := {
  _create_media_container : t -> string -> option (list string)
                            -> M Ctx pyval;
  _publish_container : t -> pyval -> M Ctx pyval
}.

Definition init (env : list (string * string)) : t :=
  {| super := BasePoster_init "threads";
     graph_api_url := "https://graph.threads.net/v1.0";
     threads_user_id := of_opt (assoc "THREADS_USER_ID" env) |}.

Definition authenticate `{Runtime}
    (access_token api_key api_secret : option string)
    (additional_params : option dict) : M (Local t) dict :=
  enter (Authenticate "threads") ;;
  TRY
    (env_token <- io (getenv "THREADS_ACCESS_TOKEN") ;;
     set_access_token (or_str access_token env_token) ;;
     (let from_env :=
        env_id <- io (getenv "THREADS_USER_ID") ;;
        cur <- attr threads_user_id ;;
        assign (with_threads_user_id (py_or cur (of_opt env_id))) in
      match additional_params with
      | Some ap =>
          if truthy (PDict ap) && mem_key "threads_user_id" ap
          then assign (with_threads_user_id
                         (dict_get "threads_user_id" ap))
          else from_env
      | None => from_env
      end) ;;
     token <- self_access_token ;;
     user <- attr threads_user_id ;;
     if negb (truthy_str token) || negb (truthy user)
     then raise "Threads access token and user ID are required"
     else
       api <- attr graph_api_url ;;
       response <- io (http (GET (api ++ "/" ++ fmt user)
                                 [("fields",
                                   PStr "id,username,threads_profile_picture_url");
                                  ("access_token", of_opt token)] [])) ;;
       if status response =? 200
       then
         user_data <- json_of response ;;
         set_authenticated true ;;
         user_id <- py_get user_data "id" ;;
         username <- py_get user_data "username" ;;
         ret [("authenticated", PBool true);
              ("user_id", user_id);
              ("username", username)]
       else
         error_data <- json_of response ;;
         raise ("Authentication failed: " ++ fmt error_data))
  EXCEPT e =>
    (set_authenticated false ;;
     raise ("Threads authentication error: " ++ e)).

Definition create_post `{Runtime} `{Helpers} (text : string)
    (media_urls : option (list string)) (schedule_time : option string)
    : M (Local t) dict :=
  enter (CreatePost "threads") ;;
  TRY
    (authed <- self_authenticated ;;
     (if negb authed
      then authenticate None None None None ;; ret tt
      else ret tt) ;;
     o <- attr (fun o => o) ;;
     container_id <- io (_create_media_container o text media_urls) ;;
     o <- attr (fun o => o) ;;
     post_id <- io (_publish_container o container_id) ;;
     ret [("post_id", post_id); ("success", PBool true);
          ("platform", PStr "threads")])
  EXCEPT e => raise ("Threads post error: " ++ e).

End ThreadsPoster.

(** ** platforms/youtube_api.py *)

(** [v[0]] *)
Definition py_index0 (S : Type) (v : pyval) : M S pyval :=
  match v with
  | PList (x :: _) => ret x
  | PList [] => raise "list index out of range"
  | PStr (String c _) => ret (PStr (String c EmptyString))
  | PStr EmptyString => raise "string index out of range"
  | PDict _ => raise "0"
  | _ => raise ("'" ++ type_name v ++ "' object is not subscriptable")
  end.

Module YouTubePoster.

Record t : Type := {
  super : BasePoster;
  api_url : string;
  upload_url : string;
  channel_id : pyval
}.

#[global] Instance poster : PosterClass t := {|
  base := super;
  with_base f o := {| super := f (super o); api_url := api_url o;
                      upload_url := upload_url o;
                      channel_id := channel_id o |}
|}.

Definition with_channel_id (v : pyval) (o : t) : t :=
  {| super := super o; api_url := api_url o; upload_url := upload_url o;
     channel_id := v |}.

Definition init (env : list (string * string)) : t :=
  {| super := with_api_key (assoc "YOUTUBE_API_KEY" env)
                (BasePoster_init "youtube");
     api_url := "https://www.googleapis.com/youtube/v3";
     upload_url := "https://www.googleapis.com/upload/youtube/v3";
     channel_id := PNone |}.

Definition authenticate `{Runtime}
    (access_token api_key api_secret : option string)
    (additional_params : option dict) : M (Local t) dict :=
  enter (Authenticate "youtube") ;;
  TRY
    (env_token <- io (getenv "YOUTUBE_ACCESS_TOKEN") ;;
     set_access_token (or_str access_token env_token) ;;
     key <- self_api_key ;;
     set_api_key (or_str api_key key) ;;
     token <- self_access_token ;;
     if negb (truthy_str token)
     then raise "YouTube access token is required"
     else
       api <- attr api_url ;;
       response <- io (http (GET (api ++ "/channels")
                                 [("part",
                                   PStr "snippet,contentDetails,statistics");
                                  ("mine", PStr "true")]
                                 [("Authorization",
                                   "Bearer " ++ fmt_opt token)])) ;;
       if status response =? 200
       then
         result <- json_of response ;;
         items <- py_get result "items" ;;
         if truthy items
         then
           channel <- py_index0 items ;;
           id <- py_get channel "id" ;;
           assign (with_channel_id id) ;;
           set_authenticated true ;;
           channel_id <- py_get channel "id" ;;
           snippet <- py_get_default channel "snippet" (PDict []) ;;
           channel_title <- py_get snippet "title" ;;
           statistics <- py_get_default channel "statistics" (PDict []) ;;
           subscriber_count <- py_get statistics "subscriberCount" ;;
           ret [("authenticated", PBool true);
                ("channel_id", channel_id);
                ("channel_title", channel_title);
                ("subscriber_count", subscriber_count)]
         else raise "No YouTube channel found"
       else
         error_data <- json_of response ;;
         raise ("Authentication failed: " ++ fmt error_data))
  EXCEPT e =>
    (set_authenticated false ;;
     raise ("YouTube authentication error: " ++ e)).

Definition _initiate_upload `{Runtime} (o : t) (metadata : pyval)
    : M Ctx (option string) :=
  TRY
    (response <- http (POST (upload_url o ++ "/videos")
                         [("uploadType", PStr "resumable");
                          ("part", PStr "snippet,status")]
                         [("Authorization",
                           "Bearer " ++ fmt_opt (access_token (super o)));
                          ("Content-Type", "application/json");
                          ("X-Upload-Content-Type", "video/*")]
                         (JsonBody metadata)) ;;
     if status_in response [200; 201]
     then ret (header response "Location")
     else
       error_data <- json_of response ;;
       raise ("Upload initiation failed: " ++ fmt error_data))
  EXCEPT e => raise ("Upload initiation error: " ++ e).

(** [upload_url] is what [_initiate_upload] returned: [None] when the
    answer had no [Location] header, and then no request goes out. *)
Definition _complete_upload `{Runtime} (o : t)
    (upload_url : option string) (video_data : string) : M Ctx pyval :=
  TRY
    (match upload_url with
     | None => raise invalid_url
     | Some location =>
         response <- http {| method := "PUT"; url := location; params := [];
                             headers := [("Content-Type", "video/*")];
                             body := RawBody video_data |} ;;
         if status_in response [200; 201]
         then
           result <- json_of response ;;
           py_get result "id"
         else
           error_data <- json_of response ;;
           raise ("Upload completion failed: " ++ fmt error_data)
     end)
  EXCEPT e => raise ("Upload completion error: " ++ e).

(** The [metadata] dict of [_upload_video], lines 139-155. *)
Definition metadata (title description category_id privacy_status : string)
    (schedule_time : option string) : pyval :=
  let snippet := [("title", PStr title);
                  ("description", PStr description);
                  ("categoryId", PStr category_id);
                  ("tags", PList [])] in
  let status := [("privacyStatus", PStr privacy_status);
                 ("selfDeclaredMadeForKids", PBool false)] in
  let status :=
    if truthy_str schedule_time
    then dict_set "publishAt" (of_opt schedule_time)
           (dict_set "privacyStatus" (PStr "private") status)
    else status in
  PDict [("snippet", PDict snippet); ("status", PDict status)].

Definition _upload_video `{Runtime} (o : t)
    (title description video_url : string) (schedule_time : option string)
    (category_id privacy_status : string) : M Ctx pyval :=
  TRY
    (video_response <- http (GET video_url [] []) ;;
     if negb (status video_response =? 200)
     then raise "Failed to download video"
     else
       video_data <- (match content video_response with
                      | inl e => raise e
                      | inr b => ret b
                      end) ;;
       upload_url <- _initiate_upload o
                       (metadata title description category_id
                                 privacy_status schedule_time) ;;
       video_id <- _complete_upload o upload_url video_data ;;
       ret video_id)
  EXCEPT e => raise ("Video upload error: " ++ e).

(** Lines 96-99 of [create_post]. *)
Definition title_of (text : string) : string :=
  let lines := split_first_newline text in
  str_take 100 (nth 0 lines EmptyString).

Definition description_of (text : string) : string :=
  let lines := split_first_newline text in
  if (1 <? length lines)%nat then nth 1 lines EmptyString else text.

Definition create_post `{Runtime} (text : string)
    (media_urls : option (list string)) (schedule_time : option string)
    : M (Local t) dict :=
  enter (CreatePost "youtube") ;;
  TRY
    (authed <- self_authenticated ;;
     (if negb authed
      then authenticate None None None None ;; ret tt
      else ret tt) ;;
     match media_urls with
     | Some (video_url :: _) =>
         let title := title_of text in
         let description := description_of text in
         o <- attr (fun o => o) ;;
         video_id <- io (_upload_video o title description video_url
                           schedule_time "22" "public") ;;
         ret [("post_id", video_id); ("success", PBool true);
              ("platform", PStr "youtube");
              ("video_url",
               PStr ("https://www.youtube.com/watch?v=" ++ fmt video_id))]
     | _ => raise "YouTube requires a video URL"
     end)
  EXCEPT e => raise ("YouTube post error: " ++ e).

End YouTubePoster.

(** ** config.py *)

Module Config.

(** The credential attributes of the class, read from the environment
    when the module is imported. *)
Record t : Type := {
  FACEBOOK_ACCESS_TOKEN : option string;
  FACEBOOK_PAGE_ID : option string;
  FACEBOOK_APP_ID : option string;
  FACEBOOK_APP_SECRET : option string;
  INSTAGRAM_ACCESS_TOKEN : option string;
  INSTAGRAM_ACCOUNT_ID : option string;
  TIKTOK_ACCESS_TOKEN : option string;
  TIKTOK_CLIENT_KEY : option string;
  TIKTOK_CLIENT_SECRET : option string;
  X_API_KEY : option string;
  X_API_SECRET : option string;
  X_ACCESS_TOKEN : option string;
  X_ACCESS_TOKEN_SECRET : option string;
  X_BEARER_TOKEN : option string;
  THREADS_ACCESS_TOKEN : option string;
  THREADS_USER_ID : option string;
  YOUTUBE_ACCESS_TOKEN : option string;
  YOUTUBE_API_KEY : option string;
  YOUTUBE_CLIENT_ID : option string;
  YOUTUBE_CLIENT_SECRET : option string
}.

Definition load (env : list (string * string)) : t :=
  let getenv name := assoc name env in
  {| FACEBOOK_ACCESS_TOKEN := getenv "FACEBOOK_ACCESS_TOKEN";
     FACEBOOK_PAGE_ID := getenv "FACEBOOK_PAGE_ID";
     FACEBOOK_APP_ID := getenv "FACEBOOK_APP_ID";
     FACEBOOK_APP_SECRET := getenv "FACEBOOK_APP_SECRET";
     INSTAGRAM_ACCESS_TOKEN := getenv "INSTAGRAM_ACCESS_TOKEN";
     INSTAGRAM_ACCOUNT_ID := getenv "INSTAGRAM_ACCOUNT_ID";
     TIKTOK_ACCESS_TOKEN := getenv "TIKTOK_ACCESS_TOKEN";
     TIKTOK_CLIENT_KEY := getenv "TIKTOK_CLIENT_KEY";
     TIKTOK_CLIENT_SECRET := getenv "TIKTOK_CLIENT_SECRET";
     X_API_KEY := getenv "X_API_KEY";
     X_API_SECRET := getenv "X_API_SECRET";
     X_ACCESS_TOKEN := getenv "X_ACCESS_TOKEN";
     X_ACCESS_TOKEN_SECRET := getenv "X_ACCESS_TOKEN_SECRET";
     X_BEARER_TOKEN := getenv "X_BEARER_TOKEN";
     THREADS_ACCESS_TOKEN := getenv "THREADS_ACCESS_TOKEN";
     THREADS_USER_ID := getenv "THREADS_USER_ID";
     YOUTUBE_ACCESS_TOKEN := getenv "YOUTUBE_ACCESS_TOKEN";
     YOUTUBE_API_KEY := getenv "YOUTUBE_API_KEY";
     YOUTUBE_CLIENT_ID := getenv "YOUTUBE_CLIENT_ID";
     YOUTUBE_CLIENT_SECRET := getenv "YOUTUBE_CLIENT_SECRET" |}.

Definition validate_credentials (cls : t) (platform : string) : bool :=
  let validation_map :=
    [("facebook", is_not_None (FACEBOOK_ACCESS_TOKEN cls));
     ("instagram", is_not_None (INSTAGRAM_ACCESS_TOKEN cls)
                   && is_not_None (INSTAGRAM_ACCOUNT_ID cls));
     ("tiktok", is_not_None (TIKTOK_ACCESS_TOKEN cls));
     ("x", is_not_None (X_BEARER_TOKEN cls)
           || (is_not_None (X_ACCESS_TOKEN cls)
               && is_not_None (X_ACCESS_TOKEN_SECRET cls)));
     ("threads", is_not_None (THREADS_ACCESS_TOKEN cls)
                 && is_not_None (THREADS_USER_ID cls));
     ("youtube", is_not_None (YOUTUBE_ACCESS_TOKEN cls))] in
  match assoc platform validation_map with
  | Some v => v
  | None => false
  end.

Definition get_available_platforms (cls : t) : list string :=
  let platforms := ["facebook"; "instagram"; "tiktok"; "x"; "threads";
                    "youtube"] in
  filter (validate_credentials cls) platforms.

End Config.

(** ** main.py *)

(** What pydantic decides and this development does not: the treatment of
    a value that is neither a string nor [None] where a [str] is declared
    (the coerced string, or the message of the validation error). *)
Class Pydantic : Type := {
  str_field : pyval -> exn + string
}.

Record PostContent : Type := {
  text : string;
  platforms : list string;
  media_urls : option (list string);
  schedule_time : option string
}.

Record PostResponse : Type := {
  success : bool;
  platform : string;
  post_id : option string;
  message : string;
  error : option string
}.

(** The process: the outside world, the ghost call record and the six
    adapter objects held by the module-level dict [platform_posters]. *)
Record System : Type := {
  ctx : Ctx;
  calls : list call;
  facebook_poster : FacebookPoster.t;
  instagram_poster : InstagramPoster.t;
  tiktok_poster : TikTokPoster.t;
  x_poster : XPoster.t;
  threads_poster : ThreadsPoster.t;
  youtube_poster : YouTubePoster.t
}.

(** Module import: every adapter is constructed once from the
    environment. *)
Definition startup (env : list (string * string))
    (transcript : list (exn + response)) : System :=
  {| ctx := {| environ := env; pending := transcript; sent := [] |};
     calls := [];
     facebook_poster := FacebookPoster.init env;
     instagram_poster := InstagramPoster.init env;
     tiktok_poster := TikTokPoster.init env;
     x_poster := XPoster.init env;
     threads_poster := ThreadsPoster.init env;
     youtube_poster := YouTubePoster.init env |}.

(** A method call on one adapter object of the process. *)
Definition on_facebook (A : Type) (m : M (Local FacebookPoster.t) A)
    : M System A :=
  zoom (fun s => Build_Local (facebook_poster s) (ctx s) (calls s))
       (fun l s => {| ctx := lctx l; calls := lcalls l;
                      facebook_poster := self l;
                      instagram_poster := instagram_poster s;
                      tiktok_poster := tiktok_poster s;
                      x_poster := x_poster s;
                      threads_poster := threads_poster s;
                      youtube_poster := youtube_poster s |}) m.
Definition on_instagram (A : Type) (m : M (Local InstagramPoster.t) A)
    : M System A :=
  zoom (fun s => Build_Local (instagram_poster s) (ctx s) (calls s))
       (fun l s => {| ctx := lctx l; calls := lcalls l;
                      facebook_poster := facebook_poster s;
                      instagram_poster := self l;
                      tiktok_poster := tiktok_poster s;
                      x_poster := x_poster s;
                      threads_poster := threads_poster s;
                      youtube_poster := youtube_poster s |}) m.
Definition on_tiktok (A : Type) (m : M (Local TikTokPoster.t) A)
    : M System A :=
  zoom (fun s => Build_Local (tiktok_poster s) (ctx s) (calls s))
       (fun l s => {| ctx := lctx l; calls := lcalls l;
                      facebook_poster := facebook_poster s;
                      instagram_poster := instagram_poster s;
                      tiktok_poster := self l;
                      x_poster := x_poster s;
                      threads_poster := threads_poster s;
                      youtube_poster := youtube_poster s |}) m.
Definition on_x (A : Type) (m : M (Local XPoster.t) A) : M System A :=
  zoom (fun s => Build_Local (x_poster s) (ctx s) (calls s))
       (fun l s => {| ctx := lctx l; calls := lcalls l;
                      facebook_poster := facebook_poster s;
                      instagram_poster := instagram_poster s;
                      tiktok_poster := tiktok_poster s;
                      x_poster := self l;
                      threads_poster := threads_poster s;
                      youtube_poster := youtube_poster s |}) m.
Definition on_threads (A : Type) (m : M (Local ThreadsPoster.t) A)
    : M System A :=
  zoom (fun s => Build_Local (threads_poster s) (ctx s) (calls s))
       (fun l s => {| ctx := lctx l; calls := lcalls l;
                      facebook_poster := facebook_poster s;
                      instagram_poster := instagram_poster s;
                      tiktok_poster := tiktok_poster s;
                      x_poster := x_poster s;
                      threads_poster := self l;
                      youtube_poster := youtube_poster s |}) m.
Definition on_youtube (A : Type) (m : M (Local YouTubePoster.t) A)
    : M System A :=
  zoom (fun s => Build_Local (youtube_poster s) (ctx s) (calls s))
       (fun l s => {| ctx := lctx l; calls := lcalls l;
                      facebook_poster := facebook_poster s;
                      instagram_poster := instagram_poster s;
                      tiktok_poster := tiktok_poster s;
                      x_poster := x_poster s;
                      threads_poster := threads_poster s;
                      youtube_poster := self l |}) m.

(** The [BasePoster] interface as seen through a reference to an adapter
    object: its two bound coroutines. *)
Record PosterRef : Type := {
  authenticate : option string -> option string -> option string
                 -> option dict -> M System dict;
  create_post : string -> option (list string) -> option string
                -> M System dict
}.

(** The six keys of [platform_posters]. *)
Inductive platform_id : Type :=
| Facebook | Instagram | TikTok | X | Threads | YouTube.

Definition name_of (p : platform_id) : string :=
  match p with
  | Facebook => "facebook"
  | Instagram => "instagram"
  | TikTok => "tiktok"
  | X => "x"
  | Threads => "threads"
  | YouTube => "youtube"
  end.

(** The [BasePoster] part of the adapter object registered under [p]. *)
Definition base_of (p : platform_id) (s : System) : BasePoster :=
  match p with
  | Facebook => base (facebook_poster s)
  | Instagram => base (instagram_poster s)
  | TikTok => base (tiktok_poster s)
  | X => base (x_poster s)
  | Threads => base (threads_poster s)
  | YouTube => base (youtube_poster s)
  end.

Section Main.
Context `{Runtime} `{Pydantic}.
Context `{InstagramPoster.Helpers} `{TikTokPoster.Helpers}.
Context `{XPoster.Helpers} `{ThreadsPoster.Helpers}.

Definition facebook : PosterRef :=
  {| authenticate a k c p := on_facebook (FacebookPoster.authenticate a k c p);
     create_post t m c := on_facebook (FacebookPoster.create_post t m c) |}.
Definition instagram : PosterRef :=
  {| authenticate a k c p :=
       on_instagram (InstagramPoster.authenticate a k c p);
     create_post t m c := on_instagram (InstagramPoster.create_post t m c) |}.
Definition tiktok : PosterRef :=
  {| authenticate a k c p := on_tiktok (TikTokPoster.authenticate a k c p);
     create_post t m c := on_tiktok (TikTokPoster.create_post t m c) |}.
Definition x : PosterRef :=
  {| authenticate a k c p := on_x (XPoster.authenticate a k c p);
     create_post t m c := on_x (XPoster.create_post t m c) |}.
Definition threads : PosterRef :=
  {| authenticate a k c p := on_threads (ThreadsPoster.authenticate a k c p);
     create_post t m c := on_threads (ThreadsPoster.create_post t m c) |}.
Definition youtube : PosterRef :=
  {| authenticate a k c p := on_youtube (YouTubePoster.authenticate a k c p);
     create_post t m c := on_youtube (YouTubePoster.create_post t m c) |}.

Definition platform_posters : list (string * PosterRef) :=
  [("facebook", facebook);
   ("instagram", instagram);
   ("tiktok", tiktok);
   ("x", x);
   ("threads", threads);
   ("youtube", youtube)].

(** [platform_posters[name_of p]] *)
Definition poster_of (p : platform_id) : PosterRef :=
  match p with
  | Facebook => facebook
  | Instagram => instagram
  | TikTok => tiktok
  | X => x
  | Threads => threads
  | YouTube => youtube
  end.

(** [GET /]: the [supported_platforms] entry of the reply. *)
Definition root_supported_platforms : list string :=
  ["facebook"; "instagram"; "tiktok"; "x"; "threads"; "youtube"].

(** [GET /health] *)
Record Health : Type := {
  health_status : string;
  timestamp : string;
  platforms_available : list string
}.

Definition health_check (now : string) : Health :=
  {| health_status := "healthy";
     timestamp := now;
     platforms_available := map fst platform_posters |}.

(** [GET /api/platforms] *)
Record PlatformInfo : Type := {
  id : string;
  name : string;
  supports_media : bool;
  supports_video : bool;
  supports_scheduling : bool
}.

Definition get_supported_platforms : list PlatformInfo :=
  [{| id := "facebook"; name := "Facebook"; supports_media := true;
      supports_video := true; supports_scheduling := true |};
   {| id := "instagram"; name := "Instagram"; supports_media := true;
      supports_video := true; supports_scheduling := true |};
   {| id := "tiktok"; name := "TikTok"; supports_media := false;
      supports_video := true; supports_scheduling := true |};
   {| id := "x"; name := "X (Twitter)"; supports_media := true;
      supports_video := true; supports_scheduling := false |};
   {| id := "threads"; name := "Threads"; supports_media := true;
      supports_video := true; supports_scheduling := false |};
   {| id := "youtube"; name := "YouTube"; supports_media := false;
      supports_video := true; supports_scheduling := true |}].

(** [PostResponse(...)]: the constructor validates [post_id] against
    [Optional[str]]; every other argument is of its declared type. *)
Definition new_PostResponse (S : Type) (success : bool) (platform : string)
    (post_id : pyval) (message : string) (error : option string)
    : M S PostResponse :=
  let build id := {| success := success; platform := platform;
                     post_id := id; message := message;
                     error := error |} in
  match post_id with
  | PNone => ret (build None)
  | PStr id => ret (build (Some id))
  | other => match str_field other with
             | inl e => raise e
             | inr id => ret (build (Some id))
             end
  end.

Definition not_supported (platform : string) : PostResponse :=
  {| success := false; platform := platform; post_id := None;
     message := "Platform not supported";
     error := Some ("Platform '" ++ platform ++ "' is not supported") |}.

Definition failed (platform : string) (e : exn) : PostResponse :=
  {| success := false; platform := platform; post_id := None;
     message := "Failed to post to " ++ platform;
     error := Some e |}.

(** The [try] statement of the loop body, lines 115-137. *)
Definition post_with (poster : PosterRef) (content : PostContent)
    (platform : string) : M System PostResponse :=
  TRY
    (post_result <- create_post poster (text content) (media_urls content)
                      (schedule_time content) ;;
     new_PostResponse true platform (dict_get "post_id" post_result)
       ("Successfully posted to " ++ platform) None)
  EXCEPT e => ret (failed platform e).

(** [for platform in content.platforms: ...] with the list [results]
    built so far. *)
Fixpoint post_loop (content : PostContent) (todo : list string)
    (results : list PostResponse) : M System (list PostResponse) :=
  match todo with
  | [] => ret results
  | platform :: rest =>
      match assoc platform platform_posters with
      | None =>
          post_loop content rest (List.app results [not_supported platform])
      | Some poster =>
          outcome <- post_with poster content platform ;;
          post_loop content rest (List.app results [outcome])
      end
  end.

Definition post_to_platforms (content : PostContent)
    : M System (list PostResponse) :=
  post_loop content (platforms content) [].

(** [platform in platform_posters] *)
Definition supported (platform : string) : bool :=
  mem_key platform platform_posters.

(** Request validation of the body against [PostContent]. *)
Definition validate_str (v : pyval) : option string :=
  match v with
  | PStr s => Some s
  | PNone => None
  | other => match str_field other with inl _ => None | inr s => Some s end
  end.

Fixpoint validate_all (l : list pyval) : option (list string) :=
  match l with
  | [] => Some []
  | v :: l' =>
      match validate_str v, validate_all l' with
      | Some s, Some ss => Some (s :: ss)
      | _, _ => None
      end
  end.

Definition validate_list (v : pyval) : option (list string) :=
  match v with PList l => validate_all l | _ => None end.

(** [Optional[T] = None]: outer [None] is a validation error. *)
Definition validate_optional (A : Type) (validate : pyval -> option A)
    (field : option pyval) : option (option A) :=
  match field with
  | None | Some PNone => Some None
  | Some v => match validate v with Some a => Some (Some a) | None => None end
  end.

Definition validate_PostContent (body : pyval) : option PostContent :=
  match body with
  | PDict d =>
      match assoc "text" d, assoc "platforms" d with
      | Some t, Some ps =>
          match validate_str t, validate_list ps,
                validate_optional validate_list (assoc "media_urls" d),
                validate_optional validate_str (assoc "schedule_time" d) with
          | Some t, Some ps, Some m, Some st =>
              Some {| text := t; platforms := ps; media_urls := m;
                      schedule_time := st |}
          | _, _, _, _ => None
          end
      | _, _ => None
      end
  | _ => None
  end.

(** [POST /api/post] as served: status code and, on success, the JSON
    list of outcomes. *)
Inductive ReplyBody : Type :=
| Outcomes (results : list PostResponse)
| ValidationDetail.

Record Reply : Type := {
  status_code : Z;
  reply_body : ReplyBody
}.

Definition api_post (body : pyval) : M System Reply :=
  match validate_PostContent body with
  | None => ret {| status_code := 422; reply_body := ValidationDetail |}
  | Some content =>
      results <- post_to_platforms content ;;
      ret {| status_code := 200; reply_body := Outcomes results |}
  end.

End Main.

(** ** main.py: the single-platform and the authentication endpoints *)

(** [media_urls.split(',')] *)
Fixpoint split_commas (s : string) : list string :=
  match s with
  | EmptyString => [EmptyString]
  | String c rest =>
      if Ascii.eqb c ","%char then EmptyString :: split_commas rest
      else match split_commas rest with
           | [] => [String c EmptyString]
           | hd :: tl => String c hd :: tl
           end
  end.

(** What [POST /api/post/{platform}] answers: the outcome, or the
    [HTTPException] the handler raised. *)
Inductive SingleReply : Type :=
| Posted (outcome : PostResponse)
| PostRefused (status_code : Z) (detail : string).

Record AuthCredentials : Type := {
  cred_platform : string;
  cred_access_token : option string;
  cred_api_key : option string;
  cred_api_secret : option string;
  cred_additional_params : option dict
}.

(** What [POST /api/auth/{platform}] answers. *)
Inductive AuthReply : Type :=
| AuthOk (platform message : string) (details : dict)
| AuthRefused (status_code : Z) (detail : string).

Section Endpoints.
Context `{Runtime} `{Pydantic}.
Context `{InstagramPoster.Helpers} `{TikTokPoster.Helpers}.
Context `{XPoster.Helpers} `{ThreadsPoster.Helpers}.

Definition post_to_single_platform (platform text : string)
    (media_urls schedule_time : option string) : M System SingleReply :=
  match assoc platform platform_posters with
  | None =>
      ret (PostRefused 400 ("Platform '" ++ platform ++ "' is not supported"))
  | Some poster =>
      TRY
        (let media_list :=
           match media_urls with
           | Some urls =>
               if negb (str_is_empty urls) then Some (split_commas urls)
               else None
           | None => None
           end in
         post_result <- create_post poster text media_list schedule_time ;;
         outcome <- new_PostResponse true platform
                      (dict_get "post_id" post_result)
                      ("Successfully posted to " ++ platform) None ;;
         ret (Posted outcome))
      EXCEPT e => ret (Posted (failed platform e))
  end.

Definition authenticate_platform (platform : string)
    (credentials : AuthCredentials) : M System AuthReply :=
  match assoc platform platform_posters with
  | None =>
      ret (AuthRefused 400 ("Platform '" ++ platform ++ "' is not supported"))
  | Some poster =>
      TRY
        (auth_result <- authenticate poster (cred_access_token credentials)
                          (cred_api_key credentials)
                          (cred_api_secret credentials)
                          (cred_additional_params credentials) ;;
         ret (AuthOk platform ("Successfully authenticated with " ++ platform)
                auth_result))
      EXCEPT e => ret (AuthRefused 401 ("Authentication failed: " ++ e))
  end.

End Endpoints.

(** ** platforms/base_poster.py: [validate_media_url] *)

Definition validate_media_url (url : string) : bool :=
  if str_is_empty url then false
  else String.prefix "http://" url || String.prefix "https://" url.

(** ** A reference deployment

    One choice for everything the development leaves open, used to run
    the service on concrete requests: a Python that prints every
    non-string value the same way, a pydantic that rejects non-strings,
    and providers whose upload endpoints cannot be reached. *)

Module Reference.

Definition runtime : Runtime := {| py_repr := fun _ => "<object>" |}.

Definition pydantic : Pydantic :=
  {| str_field := fun _ => inl "Input should be a valid string" |}.

Definition unreachable : exn := "provider unreachable".

Definition instagram_helpers : InstagramPoster.Helpers :=
  {| InstagramPoster._create_media_container := fun _ _ _ => raise unreachable;
     InstagramPoster._publish_media_container := fun _ _ => raise unreachable |}.

Definition tiktok_helpers : TikTokPoster.Helpers :=
  {| TikTokPoster._initialize_upload := fun _ => raise unreachable;
     TikTokPoster._upload_video := fun _ _ _ => raise unreachable;
     TikTokPoster._publish_video := fun _ _ _ _ => raise unreachable |}.

Definition x_helpers : XPoster.Helpers :=
  {| XPoster._upload_media := fun _ _ => raise unreachable;
     XPoster._get_oauth_header := fun _ _ _ => raise unreachable |}.

Definition threads_helpers : ThreadsPoster.Helpers :=
  {| ThreadsPoster._create_media_container := fun _ _ _ => raise unreachable;
     ThreadsPoster._publish_container := fun _ _ => raise unreachable |}.

(** A provider answer with the given status and JSON body. *)
Definition answer (code : Z) (v : pyval) : exn + response :=
  inr {| status := code; header := fun _ => None; json := inr v;
         content := inr "" |}.

(** Facebook configured with a token; the provider accepts the identity
    check and then the post. *)
Definition facebook_ready : System :=
  startup [("FACEBOOK_ACCESS_TOKEN", "tok")]
    [answer 200 (PDict [("id", PStr "u1"); ("name", PStr "Page")]);
     answer 200 (PDict [("id", PStr "1_2")])].

#[local] Existing Instance runtime.
#[local] Existing Instance pydantic.
#[local] Existing Instance instagram_helpers.
#[local] Existing Instance tiktok_helpers.
#[local] Existing Instance x_helpers.
#[local] Existing Instance threads_helpers.

(** Instagram is handed a token but no account id is configured. *)
Definition instagram_without_account : System * (exn + dict) :=
  authenticate (poster_of Instagram) (Some "T") None None None
    (startup [] []).

(** Facebook is handed a token, then asked to authenticate again without
    one; the environment holds no token. *)
Definition facebook_first : System * (exn + dict) :=
  authenticate (poster_of Facebook) (Some "T") None None None
    (startup [] [answer 200 (PDict [("id", PStr "u1")])]).

Definition facebook_second : System * (exn + dict) :=
  authenticate (poster_of Facebook) None None None None (fst facebook_first).

(** Facebook is handed the empty string; the environment holds "E". *)
Definition facebook_empty_token : System * (exn + dict) :=
  authenticate (poster_of Facebook) (Some "") None None None
    (startup [("FACEBOOK_ACCESS_TOKEN", "E")]
       [answer 200 (PDict [("id", PStr "u1")])]).

(** A Facebook post with the empty string as schedule time. *)
Definition scheduled_empty : System * (exn + dict) :=
  create_post (poster_of Facebook) "hello" None (Some "") facebook_ready.

(** YouTube configured with a token; the provider accepts the identity
    check, the video downloads, and both upload steps succeed. *)
Definition youtube_ready : System :=
  startup [("YOUTUBE_ACCESS_TOKEN", "tok")]
    [answer 200 (PDict [("items", PList [PDict [("id", PStr "ch1")]])]);
     inr {| status := 200; header := fun _ => None;
            json := inl "not JSON"; content := inr "video bytes" |};
     inr {| status := 200;
            header := fun n => if String.eqb n "Location"
                               then Some "https://upload.example/1"
                               else None;
            json := inr PNone; content := inr "" |};
     answer 200 (PDict [("id", PStr "vid1")])].

(** A video posted with a one-line text. *)
Definition title_only_post : System * (exn + dict) :=
  create_post (poster_of YouTube) "Title only"
    (Some ["https://cdn.example/v.mp4"]) None youtube_ready.

Definition hello : PostContent :=
  {| text := "hello"; platforms := ["facebook"]; media_urls := None;
     schedule_time := None |}.

Definition hello_post : System * (exn + dict) :=
  create_post facebook (text hello) (media_urls hello) (schedule_time hello)
    facebook_ready.

(** Facebook configured with a token; the provider accepts the identity
    check and the post, and reports the post's id as the given value. *)
Definition facebook_reporting (id : pyval) : System :=
  startup [("FACEBOOK_ACCESS_TOKEN", "tok")]
    [answer 200 (PDict [("id", PStr "u1"); ("name", PStr "Page")]);
     answer 200 (PDict [("id", id)])].

Definition reported_post (id : pyval) : System * (exn + dict) :=
  create_post facebook (text hello) (media_urls hello) (schedule_time hello)
    (facebook_reporting id).

Definition reported_batch (id : pyval)
    : System * (exn + list PostResponse) :=
  post_to_platforms hello (facebook_reporting id).

(** YouTube is passed a token the provider accepts, for an account that
    has no channel. *)
Definition channel_list (items : list pyval) : response :=
  {| status := 200; header := fun _ => None;
     json := inr (PDict [("items", PList items)]); content := inr "" |}.

Definition without_channel : System * (exn + dict) :=
  authenticate youtube (Some "tok") None None None
    (startup [] [inr (channel_list [])]).

End Reference.

(** ** Further runs of the reference deployment *)

Module Scenario.

#[local] Existing Instance Reference.runtime.
#[local] Existing Instance Reference.pydantic.
#[local] Existing Instance Reference.instagram_helpers.
#[local] Existing Instance Reference.tiktok_helpers.
#[local] Existing Instance Reference.x_helpers.
#[local] Existing Instance Reference.threads_helpers.

Definition no_credentials : AuthCredentials :=
  {| cred_platform := "facebook"; cred_access_token := None;
     cred_api_key := None; cred_api_secret := None;
     cred_additional_params := None |}.

(** The service after a successful [POST /api/auth/facebook]. *)
Definition facebook_authenticated : System :=
  fst (authenticate_platform "facebook" no_credentials
         Reference.facebook_ready).

(** The service after YouTube has authenticated. *)
Definition youtube_authenticated : System :=
  fst (authenticate (poster_of YouTube) None None None None
         Reference.youtube_ready).

(** The authenticated adapters facing a given transcript. *)
Definition youtube_facing (transcript : list (exn + response))
    : Local YouTubePoster.t :=
  {| self := youtube_poster youtube_authenticated;
     lctx := {| environ := []; pending := transcript; sent := [] |};
     lcalls := [] |}.

Definition facebook_facing (transcript : list (exn + response))
    : Local FacebookPoster.t :=
  {| self := facebook_poster facebook_authenticated;
     lctx := {| environ := []; pending := transcript; sent := [] |};
     lcalls := [] |}.

Definition not_found : response :=
  {| status := 404; header := fun _ => None; json := inr PNone;
     content := inr "" |}.

Definition created : response :=
  {| status := 201; header := fun _ => None;
     json := inr (PDict [("id", PStr "1_2")]); content := inr "" |}.





End Scenario.

(** * Vocabulary of the specification *)

(** A credential is present when its variable is set. *)
Definition present (o : option string) : Prop := exists v, o = Some v.

(** First line of a text, what follows its first line feed, and whether
    it has a line feed at all. *)
Fixpoint first_line (text : string) : string :=
  match text with
  | EmptyString => EmptyString
  | String c rest =>
      if Ascii.eqb c newline then EmptyString else String c (first_line rest)
  end.

Fixpoint remainder (text : string) : string :=
  match text with
  | EmptyString => EmptyString
  | String c rest => if Ascii.eqb c newline then rest else remainder rest
  end.

Fixpoint has_newline (text : string) : bool :=
  match text with
  | EmptyString => false
  | String c rest => Ascii.eqb c newline || has_newline rest
  end.

(** The form fields the feed request carries for the given media URLs
    and schedule time. *)
Definition feed_fields (d : dict) (media_urls : option (list string))
    (schedule_time : option string) : Prop :=
  assoc "link" d
    = match media_urls with Some [u] => Some (PStr u) | _ => None end
  /\ assoc "attached_media" d
    = match media_urls with
      | Some ((_ :: _ :: _) as urls) => Some (PList (map PStr urls))
      | _ => None
      end
  /\ assoc "published" d
    = (if truthy_str schedule_time then Some (PBool false) else None)
  /\ assoc "scheduled_publish_time" d
    = (if truthy_str schedule_time then Some (of_opt schedule_time) else None).

(** The adapters whose [create_post] was entered, in order. *)
Fixpoint created (cs : list call) : list string :=
  match cs with
  | [] => []
  | CreatePost p :: cs' => p :: created cs'
  | Authenticate _ :: cs' => created cs'
  end.

(** The outcome the batch endpoint is said to report for a supported
    platform, from what its adapter's [create_post] did. *)
Definition expected_outcome (platform : string) (r : exn + dict)
    : PostResponse :=
  match r with
  | inr post_result =>
      {| success := true; platform := platform;
         post_id := match dict_get "post_id" post_result with
                    | PStr id => Some id
                    | _ => None
                    end;
         message := "Successfully posted to " ++ platform;
         error := None |}
  | inl e =>
      {| success := false; platform := platform; post_id := None;
         message := "Failed to post to " ++ platform;
         error := Some e |}
  end.

(** The returned [post_id] is of the declared type: absent, [None] or a
    string. *)
Definition post_id_is_optional_str (r : exn + dict) : Prop :=
  match r with
  | inr post_result =>
      match dict_get "post_id" post_result with
      | PNone | PStr _ => True
      | _ => False
      end
  | inl _ => True
  end.

Definition with_platforms (ps : list string) (content : PostContent)
    : PostContent :=
  {| text := text content; platforms := ps;
     media_urls := media_urls content;
     schedule_time := schedule_time content |}.

(** The environment variable an adapter reads its access token from. *)
Definition token_variable (p : platform_id) : string :=
  match p with
  | Facebook => "FACEBOOK_ACCESS_TOKEN"
  | Instagram => "INSTAGRAM_ACCESS_TOKEN"
  | TikTok => "TIKTOK_ACCESS_TOKEN"
  | X => "X_ACCESS_TOKEN"
  | Threads => "THREADS_ACCESS_TOKEN"
  | YouTube => "YOUTUBE_ACCESS_TOKEN"
  end.

(** The error [authenticate] raises when credentials are missing. *)
Definition missing_credentials (p : platform_id) : exn :=
  match p with
  | Facebook =>
      "Facebook authentication error: Facebook access token is required"
  | Instagram =>
      "Instagram authentication error: Instagram access token and account ID are required"
  | TikTok => "TikTok authentication error: TikTok access token is required"
  | X => "X authentication error: X API requires bearer token or access tokens"
  | Threads =>
      "Threads authentication error: Threads access token and user ID are required"
  | YouTube =>
      "YouTube authentication error: YouTube access token is required"
  end.

(** The credentials an adapter holds are enough for it to call the
    provider. *)
Definition credentials_complete (p : platform_id) (s : System) : bool :=
  let token := truthy_str (access_token (base_of p s)) in
  match p with
  | Facebook | TikTok | YouTube => token
  | Instagram =>
      token && truthy (InstagramPoster.instagram_account_id (instagram_poster s))
  | Threads =>
      token && truthy (ThreadsPoster.threads_user_id (threads_poster s))
  | X =>
      truthy_str (XPoster.bearer_token (x_poster s))
      || (token && truthy_str (XPoster.access_token_secret (x_poster s)))
  end.

Definition is_dict (v : pyval) : bool :=
  match v with PDict _ => true | _ => false end.

(** The body of a successful identity answer, as each adapter reads it. *)
Definition identity_body (p : platform_id) (v : pyval) : bool :=
  match v with
  | PDict d =>
      match p with
      | Facebook | Instagram | Threads => true
      | X => is_dict (dict_get_default "data" (PDict []) d)
      | TikTok =>
          match dict_get_default "data" (PDict []) d with
          | PDict data => is_dict (dict_get_default "user" (PDict []) data)
          | _ => false
          end
      | YouTube =>
          match dict_get "items" d with
          | PList (PDict channel :: _) =>
              is_dict (dict_get_default "snippet" (PDict []) channel)
              && is_dict (dict_get_default "statistics" (PDict []) channel)
          | _ => false
          end
      end
  | _ => false
  end.

(** The live identity check succeeded: the answer has status 200 and a
    JSON body of the expected shape. *)
Definition identity_ok (p : platform_id) (r : response) : bool :=
  (status r =? 200)
  && match json r with inr v => identity_body p v | inl _ => false end.

(** Between [before] and [after] exactly one request was sent, and the
    provider answered it with a successful identity check. *)
Definition verified (p : platform_id) (before after : Ctx) : Prop :=
  exists answer rest req,
    pending before = inr answer :: rest
    /\ sent after = (sent before ++ [req])%list
    /\ identity_ok p answer = true.

(** [create_post] has just been entered on adapter [p]. *)
Definition entered (p : platform_id) (s : System) : System :=
  {| ctx := ctx s; calls := (calls s ++ [CreatePost (name_of p)])%list;
     facebook_poster := facebook_poster s;
     instagram_poster := instagram_poster s;
     tiktok_poster := tiktok_poster s;
     x_poster := x_poster s;
     threads_poster := threads_poster s;
     youtube_poster := youtube_poster s |}.

(** The prefix [create_post] puts before the error it re-raises. *)
Definition post_error (p : platform_id) (e : exn) : exn :=
  match p with
  | Facebook => "Facebook post error: " ++ e
  | Instagram => "Instagram post error: " ++ e
  | TikTok => "TikTok post error: " ++ e
  | X => "X post error: " ++ e
  | Threads => "Threads post error: " ++ e
  | YouTube => "YouTube post error: " ++ e
  end.

(** The same, seen from the adapter object. *)
Definition entered_local (O : Type) (n : string) (l : Local O) : Local O :=
  {| self := self l; lctx := lctx l;
     lcalls := (lcalls l ++ [CreatePost n])%list |}.

(** A computation that enters no adapter method. *)
Definition keeps_calls (O A : Type) (m : M (Local O) A) : Prop :=
  forall l, lcalls (fst (m l)) = lcalls l.

(** [",".join(parts)] *)
Fixpoint join_commas (parts : list string) : string :=
  match parts with
  | [] => EmptyString
  | [a] => a
  | a :: rest => a ++ String ","%char (join_commas rest)
  end.

Fixpoint has_comma (s : string) : bool :=
  match s with
  | EmptyString => false
  | String c rest => Ascii.eqb c ","%char || has_comma rest
  end.

Fixpoint count_commas (s : string) : nat :=
  match s with
  | EmptyString => O
  | String c rest =>
      if Ascii.eqb c ","%char then S (count_commas rest)
      else count_commas rest
  end.

(** A computation that leaves the adapter object as it is. *)
Definition keeps_self (O A : Type) (m : M (Local O) A) : Prop :=
  forall l, self (fst (m l)) = self l.

(** The six adapter objects of two states are the same. *)
Definition same_adapters (s1 s2 : System) : Prop :=
  facebook_poster s1 = facebook_poster s2
  /\ instagram_poster s1 = instagram_poster s2
  /\ tiktok_poster s1 = tiktok_poster s2
  /\ x_poster s1 = x_poster s2
  /\ threads_poster s1 = threads_poster s2
  /\ youtube_poster s1 = youtube_poster s2.

(** Every adapter flagged as authenticated holds complete credentials. *)
Definition credentials_sound (s : System) : Prop :=
  forall q, authenticated (base_of q s) = true ->
            credentials_complete q s = true.

(** The error of the adapters that cannot post without media. *)
Definition media_required (p : platform_id) : option exn :=
  match p with
  | Instagram => Some "Instagram requires at least one media URL"
  | TikTok => Some "TikTok requires a video URL"
  | YouTube => Some "YouTube requires a video URL"
  | Facebook | X | Threads => None
  end.





(** The request by which an adapter has the provider verify the
    credentials it holds. *)
Definition identity_request `{Runtime} (p : platform_id) (s : System)
    : request :=
  let token := access_token (base_of p s) in
  match p with
  | Facebook =>
      GET (FacebookPoster.graph_api_url (facebook_poster s) ++ "/me")
        [("access_token", of_opt token)] []
  | Instagram =>
      GET (InstagramPoster.graph_api_url (instagram_poster s) ++ "/"
           ++ fmt (InstagramPoster.instagram_account_id (instagram_poster s)))
        [("fields", PStr "id,username,account_type");
         ("access_token", of_opt token)] []
  | TikTok =>
      GET (TikTokPoster.api_url (tiktok_poster s) ++ "/user/info/")
        [("fields", PStr "open_id,union_id,avatar_url,display_name")]
        [("Authorization", "Bearer " ++ fmt_opt token);
         ("Content-Type", "application/json")]
  | X =>
      GET (XPoster.api_url (x_poster s) ++ "/users/me") []
        (XPoster.bearer_headers (XPoster.bearer_token (x_poster s)))
  | Threads =>
      GET (ThreadsPoster.graph_api_url (threads_poster s) ++ "/"
           ++ fmt (ThreadsPoster.threads_user_id (threads_poster s)))
        [("fields", PStr "id,username,threads_profile_picture_url");
         ("access_token", of_opt token)] []
  | YouTube =>
      GET (YouTubePoster.api_url (youtube_poster s) ++ "/channels")
        [("part", PStr "snippet,contentDetails,statistics");
         ("mine", PStr "true")]
        [("Authorization", "Bearer " ++ fmt_opt token)]
  end.

(** The provider answers the next request with an accepted identity
    check. *)
Definition identity_accepted (p : platform_id) (c : Ctx) : Prop :=
  exists answer rest,
    pending c = inr answer :: rest /\ identity_ok p answer = true.

(** What the [PostResponse] constructor makes of the [post_id] it is
    given: the field's value, or the message of the validation error. *)
Definition post_id_field `{Pydantic} (v : pyval) : exn + option string :=
  match v with
  | PNone => inr None
  | PStr id => inr (Some id)
  | other => match str_field other with
             | inl e => inl e
             | inr id => inr (Some id)
             end
  end.

(** The outcome the batch endpoint records for a supported platform,
    from what its adapter's [create_post] did: the success outcome when
    it returned a [post_id] the response accepts, the failure outcome
    with the error's text otherwise. *)
Definition recorded_outcome `{Pydantic} (platform : string)
    (r : exn + dict) : PostResponse :=
  match r with
  | inr post_result =>
      match post_id_field (dict_get "post_id" post_result) with
      | inr id =>
          {| success := true; platform := platform; post_id := id;
             message := "Successfully posted to " ++ platform;
             error := None |}
      | inl e =>
          {| success := false; platform := platform; post_id := None;
             message := "Failed to post to " ++ platform;
             error := Some e |}
      end
  | inl e =>
      {| success := false; platform := platform; post_id := None;
         message := "Failed to post to " ++ platform;
         error := Some e |}
  end.

(** * Properties *)

(** ** config.py *)

Lemma is_not_None_present (o : option string) :
  is_not_None o = true <-> present o.
Proof.
  unfold present. destruct o; simpl; split; intros Hp.
  - eauto.
  - reflexivity.
  - discriminate.
  - destruct Hp as [v Hv]. discriminate.
Qed.

Lemma available_iff (cls : Config.t) (p : string) :
  In p (Config.get_available_platforms cls)
  <-> Config.validate_credentials cls p = true.
Proof.
  unfold Config.get_available_platforms. rewrite filter_In. split.
  - intros [_ Hv]. exact Hv.
  - intros Hv. split; [| exact Hv]. revert Hv.
    unfold Config.validate_credentials. cbn [assoc].
    repeat match goal with
           | |- context [String.eqb p ?k] =>
               destruct (String.eqb_spec p k) as [-> | _];
               [simpl; tauto |]
           end.
    discriminate.
Qed.

(** C7. The credential check reports a platform as available exactly
    under its own rule: X needs the bearer token or both the access token
    and its secret; Instagram and Threads need the access token and the
    account / user id; Facebook, TikTok and YouTube need the access token
    only.  Any other identifier is never available. *)
Theorem C7_credential_rules (env : list (string * string)) :
  let cls := Config.load env in
  let available p := In p (Config.get_available_platforms cls) in
  (available "x" <->
     present (assoc "X_BEARER_TOKEN" env)
     \/ (present (assoc "X_ACCESS_TOKEN" env)
         /\ present (assoc "X_ACCESS_TOKEN_SECRET" env)))
  /\ (available "instagram" <->
       present (assoc "INSTAGRAM_ACCESS_TOKEN" env)
       /\ present (assoc "INSTAGRAM_ACCOUNT_ID" env))
  /\ (available "threads" <->
       present (assoc "THREADS_ACCESS_TOKEN" env)
       /\ present (assoc "THREADS_USER_ID" env))
  /\ (available "facebook" <-> present (assoc "FACEBOOK_ACCESS_TOKEN" env))
  /\ (available "tiktok" <-> present (assoc "TIKTOK_ACCESS_TOKEN" env))
  /\ (available "youtube" <-> present (assoc "YOUTUBE_ACCESS_TOKEN" env))
  /\ (forall p, available p <-> Config.validate_credentials cls p = true)
  /\ (forall p, available p ->
       In p ["facebook"; "instagram"; "tiktok"; "x"; "threads"; "youtube"]).
Proof.
  intros cls available. unfold available, cls.
  do 6 (split;
        [rewrite available_iff; unfold Config.validate_credentials; simpl;
         rewrite ?orb_true_iff, ?andb_true_iff, ?is_not_None_present; tauto
        |]).
  split.
  - intros p. apply available_iff.
  - intros p Hp. unfold Config.get_available_platforms in Hp.
    apply filter_In in Hp. tauto.
Qed.

(** ** platforms/youtube_api.py: title and description *)

Lemma split_first_newline_spec (text : string) :
  split_first_newline text
  = if has_newline text then [first_line text; remainder text] else [text].
Proof.
  induction text as [| c rest IH]; simpl; [reflexivity |].
  destruct (Ascii.eqb c newline); simpl; [reflexivity |].
  rewrite IH. destruct (has_newline rest); reflexivity.
Qed.

Lemma first_line_single (text : string) :
  has_newline text = false -> first_line text = text.
Proof.
  induction text as [| c rest IH]; simpl; [reflexivity |].
  destruct (Ascii.eqb c newline); simpl; [discriminate |].
  intros Hn. rewrite IH by exact Hn. reflexivity.
Qed.

Lemma first_line_has_no_newline (text : string) :
  has_newline (first_line text) = false.
Proof.
  induction text as [| c rest IH]; simpl; [reflexivity |].
  destruct (Ascii.eqb c newline) eqn:Hc; simpl; [reflexivity |].
  rewrite Hc, IH. reflexivity.
Qed.

Lemma lines_rebuild (text : string) :
  text = if has_newline text
         then first_line text ++ String newline (remainder text)
         else first_line text.
Proof.
  induction text as [| c rest IH]; simpl; [reflexivity |].
  destruct (Ascii.eqb_spec c newline) as [-> | Hc]; simpl; [reflexivity |].
  destruct (has_newline rest); simpl; rewrite <- IH; reflexivity.
Qed.

Lemma str_take_length (n : nat) (s : string) :
  (String.length (str_take n s) <= n)%nat.
Proof.
  revert s. induction n as [| n IH]; intros s; simpl; [lia |].
  destruct s as [| c s']; simpl; [lia |]. specialize (IH s'). lia.
Qed.

(** C5 (as amended).  The video title is the first line of the text cut
    to at most 100 characters.  The description is what follows the first
    line feed when the text has one, and the whole text when it has
    none. *)
Theorem C5_title_and_description (text : string) :
  YouTubePoster.title_of text = str_take 100 (first_line text)
  /\ (String.length (YouTubePoster.title_of text) <= 100)%nat
  /\ YouTubePoster.description_of text
     = (if has_newline text then remainder text else text)
  /\ has_newline (first_line text) = false
  /\ text = (if has_newline text
             then first_line text ++ String newline (remainder text)
             else first_line text).
Proof.
  unfold YouTubePoster.title_of, YouTubePoster.description_of.
  rewrite split_first_newline_spec.
  split; [| split; [| split; [| split]]].
  - destruct (has_newline text) eqn:Hn; cbn [nth]; [reflexivity |].
    rewrite first_line_single by exact Hn. reflexivity.
  - apply str_take_length.
  - destruct (has_newline text); reflexivity.
  - apply first_line_has_no_newline.
  - apply lines_rebuild.
Qed.

(** C5, as stated, at the text "Title only": it has no line feed, so its
    remainder after the first line is empty, but the description is the
    whole text. *)
Lemma C5_counterexample :
  has_newline "Title only" = false
  /\ remainder "Title only" = ""
  /\ YouTubePoster.description_of "Title only" = "Title only"
  /\ YouTubePoster.description_of "Title only" <> remainder "Title only".
Proof.
  repeat split; try reflexivity. vm_compute. discriminate.
Qed.

(** ** platforms/facebook_api.py: the feed request *)

(** Case analysis on an innermost [match] or [if] of the goal. *)
Ltac branch :=
  match goal with
  | |- context [match ?x with _ => _ end] =>
      lazymatch x with
      | context [match _ with _ => _ end] => fail
      | _ => destruct x eqn:?
      end
  end.

Ltac run_monad :=
  unfold bind, try_except, enter, io, zoom, attr, assign, gets, modify,
    http, getenv, json_of, py_get, py_get_default, py_index0,
    set_access_token, set_api_key, set_api_secret, set_authenticated,
    self_access_token, self_authenticated, self_api_key, self_api_secret,
    ret, raise, with_self, with_lctx in *.

Lemma post_data_fields (text : string) (token : option string)
    (media_urls : option (list string)) (schedule_time : option string) :
  feed_fields (FacebookPoster.post_data text token media_urls schedule_time)
    media_urls schedule_time.
Proof.
  unfold feed_fields, FacebookPoster.post_data.
  destruct media_urls as [[| u [| v urls]] |];
    destruct schedule_time as [[| c st] |];
    repeat split; reflexivity.
Qed.

(** C6 (as amended).  Every [POST] request [create_post] sends is a form
    whose fields carry: the media URL under [link] exactly when one URL is
    supplied; the list of URLs under [attached_media] (and no [link])
    exactly when more than one is supplied; [published = False] and
    [scheduled_publish_time] exactly when a non-empty schedule time is
    supplied.  An already authenticated adapter sends exactly that one
    request. *)
Theorem C6_feed_request `{Runtime} (text : string)
    (media_urls : option (list string)) (schedule_time : option string)
    (l : Local FacebookPoster.t) :
  let l' := fst (FacebookPoster.create_post text media_urls schedule_time l) in
  exists reqs,
    sent (lctx l') = (sent (lctx l) ++ reqs)%list
    /\ (forall req, In req reqs -> method req = "POST" ->
        exists d, body req = FormData d
                  /\ feed_fields d media_urls schedule_time)
    /\ (authenticated (base (self l)) = true ->
        exists req, reqs = [req] /\ method req = "POST").
Proof.
  unfold FacebookPoster.create_post, FacebookPoster.authenticate.
  run_monad. cbn.
  destruct (authenticated (FacebookPoster.super (self l))) eqn:Hauth; cbn.
  all: repeat (branch; cbn).
  all: first
    [ exists []; rewrite app_nil_r; split; [reflexivity |]
    | eexists [_]; split; [reflexivity |]
    | eexists [_; _]; rewrite <- app_assoc; split; [reflexivity |] ].
  all: split;
    [ intros req Hin Hm; cbn in Hin;
      repeat (destruct Hin as [<- | Hin]); try contradiction;
      try discriminate Hm;
      (eexists; (split; [reflexivity | apply post_data_fields]))
    | intros Ha; try discriminate Ha; (eexists; (split; reflexivity)) ].
Qed.

(** ** The ghost call record of the adapters *)

Section Frame.
Context {O : Type}.

Lemma keeps_ret (A : Type) (a : A) : keeps_calls (O:=O) (ret a).
Proof. intros l. reflexivity. Qed.

Lemma keeps_raise (A : Type) (e : exn) : keeps_calls (O:=O) (A:=A) (raise e).
Proof. intros l. reflexivity. Qed.

Lemma keeps_attr (A : Type) (f : O -> A) : keeps_calls (attr f).
Proof. intros l. reflexivity. Qed.

Lemma keeps_assign (f : O -> O) : keeps_calls (assign f).
Proof. intros l. reflexivity. Qed.

Lemma keeps_io (A : Type) (m : M Ctx A) : keeps_calls (O:=O) (io m).
Proof.
  intros l. unfold io, zoom. destruct (m (lctx l)) as [c r]. reflexivity.
Qed.

Lemma keeps_json_of (r : response) : keeps_calls (O:=O) (json_of r).
Proof. intros l. unfold json_of. destruct (json r); reflexivity. Qed.

Lemma keeps_py_get (v : pyval) (k : string) : keeps_calls (O:=O) (py_get v k).
Proof. intros l. destruct v; reflexivity. Qed.

Lemma keeps_py_get_default (v : pyval) (k : string) (d : pyval) :
  keeps_calls (O:=O) (py_get_default v k d).
Proof. intros l. destruct v; reflexivity. Qed.

Lemma keeps_py_index0 (v : pyval) : keeps_calls (O:=O) (py_index0 v).
Proof. intros l. destruct v as [| | | [|] | [|] |]; reflexivity. Qed.

Lemma keeps_bind (A B : Type) (m : M (Local O) A) (k : A -> M (Local O) B) :
  keeps_calls m -> (forall a, keeps_calls (k a)) -> keeps_calls (bind m k).
Proof.
  intros Hm Hk l. unfold bind. specialize (Hm l).
  destruct (m l) as [l1 [e | a]]; simpl in *; [exact Hm |].
  rewrite Hk. exact Hm.
Qed.

Lemma keeps_try (A : Type) (m : M (Local O) A) (h : exn -> M (Local O) A) :
  keeps_calls m -> (forall e, keeps_calls (h e)) ->
  keeps_calls (try_except m h).
Proof.
  intros Hm Hh l. unfold try_except. specialize (Hm l).
  destruct (m l) as [l1 [e | a]]; simpl in *; [| exact Hm].
  rewrite Hh. exact Hm.
Qed.

(** A method body that enters nothing else records exactly its own
    entry. *)
Lemma entered_calls (A : Type) (c : call) (m : M (Local O) A) (l : Local O) :
  keeps_calls m ->
  lcalls (fst (bind (enter c) (fun _ => m) l)) = (lcalls l ++ [c])%list.
Proof. intros Hm. unfold bind, enter, modify. rewrite Hm. reflexivity. Qed.

End Frame.

Ltac frame :=
  unfold set_access_token, set_api_key, set_api_secret, set_authenticated,
    self_access_token, self_authenticated, self_api_key, self_api_secret;
  repeat (cbv zeta;
          first
            [ match goal with
              | |- keeps_calls (match ?x with _ => _ end) => destruct x
              end
            | simple apply keeps_bind; [| intros ?]
            | simple apply keeps_try; [| intros ?]
            | simple apply keeps_ret | simple apply keeps_raise
            | simple apply keeps_attr | simple apply keeps_assign
            | simple apply keeps_io | simple apply keeps_json_of
            | simple apply keeps_py_get | simple apply keeps_py_get_default
            | simple apply keeps_py_index0 ]).

(** The common shape of the six [create_post] coroutines: enter, then
    inside the [try] authenticate when the flag is down, then publish. *)
Lemma create_post_shape_calls (O : Type) `{PosterClass O} (n : string)
    (auth : M (Local O) dict) (publish : M (Local O) dict)
    (wrap : exn -> exn) (l : Local O) :
  (forall l0, lcalls (fst (auth l0)) = (lcalls l0 ++ [Authenticate n])%list) ->
  keeps_calls publish ->
  lcalls (fst ((enter (CreatePost n) ;;
                TRY
                  (authed <- self_authenticated ;;
                   (if negb authed then auth ;; ret tt else ret tt) ;;
                   publish)
                EXCEPT e => raise (wrap e)) l))
  = (lcalls l ++ CreatePost n
       :: (if authenticated (base (self l)) then []
           else [Authenticate n]))%list.
Proof.
  intros Hauth Hpub.
  unfold bind at 1. unfold enter at 1. unfold modify. cbv beta iota.
  unfold try_except, bind, self_authenticated, attr, gets. cbn [self].
  destruct (authenticated (base (self l))); cbn [negb].
  - unfold ret at 1. cbv beta iota.
    match goal with
    | |- context [publish ?l0] =>
        specialize (Hpub l0); destruct (publish l0) as [l1 [e | d]]
    end; simpl in *; exact Hpub.
  - match goal with
    | |- context [auth ?l0] =>
        specialize (Hauth l0); destruct (auth l0) as [l1 [e | d]]
    end; simpl in *.
    + rewrite Hauth, <- app_assoc. reflexivity.
    + specialize (Hpub l1). destruct (publish l1) as [l2 [e | d']];
        simpl in *; rewrite Hpub, Hauth, <- app_assoc; reflexivity.
Qed.

Section AuthenticateCalls.
Context `{Runtime}.
Variables (token key secret : option string) (extra : option dict).

Lemma facebook_authenticate_calls (l : Local FacebookPoster.t) :
  lcalls (fst (FacebookPoster.authenticate token key secret extra l))
  = (lcalls l ++ [Authenticate "facebook"])%list.
Proof. apply entered_calls. frame. Qed.

Lemma instagram_authenticate_calls (l : Local InstagramPoster.t) :
  lcalls (fst (InstagramPoster.authenticate token key secret extra l))
  = (lcalls l ++ [Authenticate "instagram"])%list.
Proof. apply entered_calls. frame. Qed.

Lemma tiktok_authenticate_calls (l : Local TikTokPoster.t) :
  lcalls (fst (TikTokPoster.authenticate token key secret extra l))
  = (lcalls l ++ [Authenticate "tiktok"])%list.
Proof. apply entered_calls. frame. Qed.

Lemma x_authenticate_calls (l : Local XPoster.t) :
  lcalls (fst (XPoster.authenticate token key secret extra l))
  = (lcalls l ++ [Authenticate "x"])%list.
Proof. apply entered_calls. frame. Qed.

Lemma threads_authenticate_calls (l : Local ThreadsPoster.t) :
  lcalls (fst (ThreadsPoster.authenticate token key secret extra l))
  = (lcalls l ++ [Authenticate "threads"])%list.
Proof. apply entered_calls. frame. Qed.

Lemma youtube_authenticate_calls (l : Local YouTubePoster.t) :
  lcalls (fst (YouTubePoster.authenticate token key secret extra l))
  = (lcalls l ++ [Authenticate "youtube"])%list.
Proof. apply entered_calls. frame. Qed.

End AuthenticateCalls.

Ltac create_post_calls authenticate_calls :=
  intros; eapply create_post_shape_calls;
  [ intros ?; apply authenticate_calls | frame ].

Section CreatePostCalls.
Context `{Runtime}.
Context `{InstagramPoster.Helpers} `{TikTokPoster.Helpers}.
Context `{XPoster.Helpers} `{ThreadsPoster.Helpers}.
Variables (text : string) (media_urls : option (list string)).
Variables (schedule_time : option string).

Lemma facebook_create_post_calls (l : Local FacebookPoster.t) :
  lcalls (fst (FacebookPoster.create_post text media_urls schedule_time l))
  = (lcalls l ++ CreatePost "facebook"
       :: (if authenticated (base (self l)) then []
           else [Authenticate "facebook"]))%list.
Proof.
  unfold FacebookPoster.create_post.
  create_post_calls facebook_authenticate_calls.
Qed.

Lemma instagram_create_post_calls (l : Local InstagramPoster.t) :
  lcalls (fst (InstagramPoster.create_post text media_urls schedule_time l))
  = (lcalls l ++ CreatePost "instagram"
       :: (if authenticated (base (self l)) then []
           else [Authenticate "instagram"]))%list.
Proof.
  unfold InstagramPoster.create_post.
  create_post_calls instagram_authenticate_calls.
Qed.

Lemma tiktok_create_post_calls (l : Local TikTokPoster.t) :
  lcalls (fst (TikTokPoster.create_post text media_urls schedule_time l))
  = (lcalls l ++ CreatePost "tiktok"
       :: (if authenticated (base (self l)) then []
           else [Authenticate "tiktok"]))%list.
Proof.
  unfold TikTokPoster.create_post.
  create_post_calls tiktok_authenticate_calls.
Qed.

Lemma x_create_post_calls (l : Local XPoster.t) :
  lcalls (fst (XPoster.create_post text media_urls schedule_time l))
  = (lcalls l ++ CreatePost "x"
       :: (if authenticated (base (self l)) then []
           else [Authenticate "x"]))%list.
Proof.
  unfold XPoster.create_post.
  create_post_calls x_authenticate_calls.
Qed.

Lemma threads_create_post_calls (l : Local ThreadsPoster.t) :
  lcalls (fst (ThreadsPoster.create_post text media_urls schedule_time l))
  = (lcalls l ++ CreatePost "threads"
       :: (if authenticated (base (self l)) then []
           else [Authenticate "threads"]))%list.
Proof.
  unfold ThreadsPoster.create_post.
  create_post_calls threads_authenticate_calls.
Qed.

Lemma youtube_create_post_calls (l : Local YouTubePoster.t) :
  lcalls (fst (YouTubePoster.create_post text media_urls schedule_time l))
  = (lcalls l ++ CreatePost "youtube"
       :: (if authenticated (base (self l)) then []
           else [Authenticate "youtube"]))%list.
Proof.
  unfold YouTubePoster.create_post.
  create_post_calls youtube_authenticate_calls.
Qed.

End CreatePostCalls.

(** ** main.py: the batch endpoint *)

Lemma created_app (a b : list call) :
  created (a ++ b) = (created a ++ created b)%list.
Proof.
  induction a as [| [p | p] a IH]; simpl; rewrite ?IH; reflexivity.
Qed.

Lemma zoom_fst (S T A : Type) (get : S -> T) (set : T -> S -> S)
    (m : M T A) (s : S) :
  zoom get set m s = (set (fst (m (get s))) s, snd (m (get s))).
Proof. unfold zoom. destruct (m (get s)). reflexivity. Qed.

Section Aggregator.
Context `{Runtime} `{Pydantic}.
Context `{InstagramPoster.Helpers} `{TikTokPoster.Helpers}.
Context `{XPoster.Helpers} `{ThreadsPoster.Helpers}.

Lemma supported_assoc (p : string) :
  supported p = false <-> assoc p platform_posters = None.
Proof.
  unfold supported, mem_key.
  destruct (assoc p platform_posters); simpl; split; congruence.
Qed.

(** Entering [create_post] through the registry records exactly the
    adapter registered under that identifier. *)
Lemma registry_created (p : string) (poster : PosterRef)
    (t : string) (m : option (list string)) (c : option string)
    (s : System) :
  assoc p platform_posters = Some poster ->
  created (calls (fst (create_post poster t m c s)))
  = (created (calls s) ++ [p])%list.
Proof.
  unfold platform_posters. cbn [assoc].
  repeat match goal with
         | |- context [String.eqb p ?k] =>
             destruct (String.eqb_spec p k) as [-> | _]
         end;
    intros Hp; inversion Hp; subst poster; clear Hp;
    cbn [create_post facebook instagram tiktok x threads youtube];
    unfold on_facebook, on_instagram, on_tiktok, on_x, on_threads,
      on_youtube;
    rewrite zoom_fst; cbn [calls fst].
  - rewrite facebook_create_post_calls, created_app. cbn [lcalls].
    destruct (authenticated _); reflexivity.
  - rewrite instagram_create_post_calls, created_app. cbn [lcalls].
    destruct (authenticated _); reflexivity.
  - rewrite tiktok_create_post_calls, created_app. cbn [lcalls].
    destruct (authenticated _); reflexivity.
  - rewrite x_create_post_calls, created_app. cbn [lcalls].
    destruct (authenticated _); reflexivity.
  - rewrite threads_create_post_calls, created_app. cbn [lcalls].
    destruct (authenticated _); reflexivity.
  - rewrite youtube_create_post_calls, created_app. cbn [lcalls].
    destruct (authenticated _); reflexivity.
Qed.

(** The [try] statement of the loop body never raises, reports under the
    platform identifier it was run for, and enters that adapter only. *)
Lemma post_with_total (p : string) (poster : PosterRef)
    (content : PostContent) (s : System) :
  assoc p platform_posters = Some poster ->
  exists s' o,
    post_with poster content p s = (s', inr o)
    /\ platform o = p
    /\ created (calls s') = (created (calls s) ++ [p])%list.
Proof.
  intros Hp.
  pose proof (@registry_created p poster (text content)
                (media_urls content) (schedule_time content) s Hp) as Hc.
  unfold post_with, try_except, bind.
  destruct (create_post poster (text content) (media_urls content)
              (schedule_time content) s) as [s1 [e | d]]; cbn [fst] in Hc.
  - exists s1, (failed p e). auto.
  - unfold new_PostResponse.
    destruct (dict_get "post_id" d); cbn; try destruct (str_field _);
      cbn; do 2 eexists;
      (split; [reflexivity | split; [reflexivity | exact Hc]]).
Qed.

Lemma post_loop_spec (content : PostContent) (todo : list string) :
  forall results s,
  exists s' out,
    post_loop content todo results s = (s', inr (results ++ out)%list)
    /\ map platform out = todo
    /\ (forall i p, nth_error todo i = Some p -> supported p = false ->
        nth_error out i = Some (not_supported p))
    /\ created (calls s') = (created (calls s) ++ filter supported todo)%list
    /\ (forall results',
        post_loop content (filter supported todo) results' s
        = (s', inr (results'
                    ++ filter (fun o => supported (platform o)) out)%list)).
Proof.
  induction todo as [| p rest IH]; intros results s.
  - exists s, []. cbn. rewrite !app_nil_r. repeat split; try reflexivity.
    + intros [| i] p Hi; discriminate.
    + intros results'. rewrite app_nil_r. reflexivity.
  - cbn [post_loop filter].
    destruct (assoc p platform_posters) as [poster |] eqn:Hp.
    + assert (Hs : supported p = true)
        by (unfold supported, mem_key; rewrite Hp; reflexivity).
      destruct (@post_with_total p poster content s Hp) as (s1 & o & Ho & Hplat & Hc1).
      destruct (IH (results ++ [o])%list s1)
        as (s' & out & Hrun & Hmap & Hns & Hc & Hf).
      exists s', (o :: out). rewrite Hs. cbn [post_loop].
      rewrite Hp. unfold bind at 1. rewrite Ho.
      rewrite Hrun, <- app_assoc. cbn [app map filter].
      rewrite Hplat, Hs, Hmap.
      split; [reflexivity |]. split; [reflexivity |]. split; [| split].
      * intros [| i] q Hi Hq; cbn in *.
        -- inversion Hi; subst q. congruence.
        -- apply Hns; assumption.
      * rewrite Hc, Hc1, <- app_assoc. reflexivity.
      * intros results'. unfold bind at 1. rewrite Ho, Hf, <- app_assoc.
        reflexivity.
    + assert (Hs : supported p = false)
        by (apply supported_assoc; exact Hp).
      destruct (IH (results ++ [not_supported p])%list s)
        as (s' & out & Hrun & Hmap & Hns & Hc & Hf).
      exists s', (not_supported p :: out). rewrite Hs, Hrun, <- app_assoc.
      cbn [app map filter platform not_supported]. rewrite Hs, Hmap.
      split; [reflexivity |]. split; [reflexivity |]. split; [| split].
      * intros [| i] q Hi Hq; cbn in *.
        -- inversion Hi; subst q. reflexivity.
        -- apply Hns; assumption.
      * exact Hc.
      * exact Hf.
Qed.

Lemma post_loop_fields (content : PostContent) (ps todo : list string) :
  forall results s,
    post_loop (with_platforms ps content) todo results s
    = post_loop content todo results s.
Proof.
  induction todo as [| p rest IH]; intros results s; cbn [post_loop];
    [reflexivity |].
  destruct (assoc p platform_posters) as [poster |]; [| apply IH].
  unfold bind, post_with.
  cbn [text media_urls schedule_time with_platforms].
  destruct (try_except _ _ s) as [s1 [e | o]]; [reflexivity | apply IH].
Qed.

(** C1. The handler of [POST /api/post] never raises and returns one
    outcome per requested platform identifier, in input order: the list
    has the length of the platform list and its i-th outcome carries the
    i-th identifier, whatever the adapters did.  The endpoint serves that
    list with status 200 for every body that passes validation. *)
Theorem C1_one_outcome_per_platform (content : PostContent) (s : System) :
  exists s' results,
    post_to_platforms content s = (s', inr results)
    /\ length results = length (platforms content)
    /\ map platform results = platforms content
    /\ (forall i p, nth_error (platforms content) i = Some p ->
        exists o, nth_error results i = Some o /\ platform o = p)
    /\ (forall body, validate_PostContent body = Some content ->
        api_post body s
        = (s', inr {| status_code := 200; reply_body := Outcomes results |})).
Proof.
  unfold post_to_platforms.
  destruct (post_loop_spec content (platforms content) [] s)
    as (s' & out & Hrun & Hmap & _).
  cbn [app] in Hrun. exists s', out.
  split; [exact Hrun |]. split; [| split; [exact Hmap | split]].
  - rewrite <- Hmap. symmetry. apply length_map.
  - intros i p Hi. rewrite <- Hmap, nth_error_map in Hi.
    destruct (nth_error out i) as [o |]; [| discriminate].
    exists o. split; [reflexivity |]. cbn in Hi. congruence.
  - intros body Hv. unfold api_post. rewrite Hv.
    unfold bind, post_to_platforms. rewrite Hrun. reflexivity.
Qed.

(** C2. In a batch, every platform identifier without a registered
    adapter gets, at its own position, an outcome with [success = False]
    and the message "Platform not supported"; the adapters entered are
    exactly those of the supported identifiers, in order; and dropping the
    unsupported identifiers from the request changes neither the final
    state nor the outcomes of the others. *)
Theorem C2_unsupported_platforms (content : PostContent) (s : System) :
  exists s' results,
    post_to_platforms content s = (s', inr results)
    /\ (forall i p,
          nth_error (platforms content) i = Some p -> supported p = false ->
          exists o,
            nth_error results i = Some o
            /\ success o = false
            /\ platform o = p
            /\ post_id o = None
            /\ message o = "Platform not supported"
            /\ str_contains "not supported" (message o) = true)
    /\ created (calls s')
       = (created (calls s) ++ filter supported (platforms content))%list
    /\ post_to_platforms
         (with_platforms (filter supported (platforms content)) content) s
       = (s', inr (filter (fun o => supported (platform o)) results)).
Proof.
  unfold post_to_platforms.
  destruct (post_loop_spec content (platforms content) [] s)
    as (s' & out & Hrun & _ & Hns & Hc & Hf).
  cbn [app] in Hrun. exists s', out.
  split; [exact Hrun |]. split; [| split; [exact Hc |]].
  - intros i p Hi Hp. exists (not_supported p).
    split; [apply Hns; assumption |]. repeat split; reflexivity.
  - cbn [platforms with_platforms]. rewrite post_loop_fields.
    rewrite (Hf []). reflexivity.
Qed.

Lemma new_PostResponse_run (S : Type) (ok : bool) (p : string) (v : pyval)
    (msg : string) (err : option string) (s : S) :
  new_PostResponse ok p v msg err s
  = (s, match post_id_field v with
        | inr id => inr {| success := ok; platform := p; post_id := id;
                           message := msg; error := err |}
        | inl e => inl e
        end).
Proof.
  unfold new_PostResponse, post_id_field.
  destruct v; try reflexivity; destruct (str_field _); reflexivity.
Qed.

(** C10 (as amended).  In the batch loop, the outcome recorded for a
    supported platform is decided by what the adapter's [create_post] did
    and by the [post_id] it returned, and by nothing else of the returned
    dict.  It is the success outcome exactly when [create_post] returned
    and the response accepted the returned [post_id] (absent, [None], a
    string, or a value pydantic takes for one); it then carries that
    [post_id].  When [create_post] raised, or returned a [post_id] the
    response refuses, it is the failure outcome with the text of the
    exception, respectively of the validation error.  For a [post_id] of
    the declared type this is the outcome of the specification.  The loop
    then goes on from the state [create_post] left. *)
Theorem C10_outcome_of_create_post (content : PostContent) (p : string)
    (poster : PosterRef) (rest : list string) (results : list PostResponse)
    (s : System) :
  assoc p platform_posters = Some poster ->
  let post := create_post poster (text content) (media_urls content)
                (schedule_time content) s in
  post_loop content (p :: rest) results s
  = post_loop content rest (results ++ [recorded_outcome p (snd post)])%list
      (fst post)
  /\ (success (recorded_outcome p (snd post)) = true
      <-> exists post_result id,
          snd post = inr post_result
          /\ post_id_field (dict_get "post_id" post_result) = inr id)
  /\ (forall post_result e,
      snd post = inr post_result ->
      post_id_field (dict_get "post_id" post_result) = inl e ->
      recorded_outcome p (snd post) = failed p e)
  /\ (forall e, snd post = inl e -> recorded_outcome p (snd post) = failed p e)
  /\ (post_id_is_optional_str (snd post) ->
      recorded_outcome p (snd post) = expected_outcome p (snd post)).
Proof.
  intros Hp post. cbn [post_loop]. rewrite Hp.
  unfold bind at 1. unfold post_with, try_except, bind. fold post.
  destruct post as [s1 [e | d]]; cbn [fst snd].
  - split; [reflexivity |]. split; [| split; [| split]].
    + cbn. split; [discriminate |]. intros (d & id & Hd & _). discriminate.
    + intros d e' Hd. discriminate.
    + intros e' He. injection He as <-. reflexivity.
    + reflexivity.
  - rewrite new_PostResponse_run. unfold recorded_outcome.
    destruct (post_id_field (dict_get "post_id" d)) as [e | id] eqn:Hf;
      cbn [fst snd].
    + split; [reflexivity |]. split; [| split; [| split]].
      * cbn. split; [discriminate |].
        intros (d' & id & Hd & Hf'). injection Hd as <-. congruence.
      * intros d' e' Hd Hf'. injection Hd as <-.
        assert (e' = e) by congruence. subst e'. reflexivity.
      * intros e' He. discriminate.
      * unfold post_id_is_optional_str. revert Hf. unfold post_id_field.
        destruct (dict_get "post_id" d); try contradiction; discriminate.
    + split; [reflexivity |]. split; [| split; [| split]].
      * cbn. split; [eauto | reflexivity].
      * intros d' e' Hd Hf'. injection Hd as <-. congruence.
      * intros e' He. discriminate.
      * unfold post_id_is_optional_str, expected_outcome. revert Hf.
        unfold post_id_field.
        destruct (dict_get "post_id" d); try contradiction;
          intros Hf _; injection Hf as <-; reflexivity.
Qed.
(** C9. The [platforms_available] list of [GET /health] is the key list of
    [platform_posters]; each of its entries is one of the six identifiers
    of [GET /] and is the id of an entry of the [GET /api/platforms]
    catalog.  (The three lists are in fact equal.) *)
Theorem C9_health_within_catalog (now : string) :
  incl (platforms_available (health_check now)) root_supported_platforms
  /\ incl (platforms_available (health_check now))
        (map id get_supported_platforms)
  /\ length root_supported_platforms = 6%nat
  /\ platforms_available (health_check now) = root_supported_platforms
  /\ platforms_available (health_check now) = map id get_supported_platforms.
Proof.
  repeat split; try reflexivity; apply incl_refl.
Qed.

(** C3 (the code at the inputs the claim is about).  A body with an empty
    text passes validation: the request is served with status 200 and the
    Facebook adapter's [create_post] is entered.  A body with an empty
    platform list passes validation too and is served with status 200 and
    an empty list. *)
Theorem C3_empty_input_is_served (s : System) :
  (exists s' results,
      api_post (PDict [("text", PStr "");
                       ("platforms", PList [PStr "facebook"])]) s
      = (s', inr {| status_code := 200; reply_body := Outcomes results |})
      /\ created (calls s') = (created (calls s) ++ ["facebook"])%list)
  /\ api_post (PDict [("text", PStr "Test"); ("platforms", PList [])]) s
     = (s, inr {| status_code := 200; reply_body := Outcomes [] |}).
Proof.
  split; [| reflexivity].
  unfold api_post.
  change (validate_PostContent
            (PDict [("text", PStr ""); ("platforms", PList [PStr "facebook"])]))
    with (Some {| text := ""; platforms := ["facebook"];
                  media_urls := None; schedule_time := None |}).
  unfold bind, post_to_platforms. cbn [platforms].
  destruct (post_loop_spec
              {| text := ""; platforms := ["facebook"];
                 media_urls := None; schedule_time := None |}
              ["facebook"] [] s)
    as (s' & out & Hrun & _ & _ & Hc & _).
  rewrite Hrun. exists s', out. split; [reflexivity | exact Hc].
Qed.

End Aggregator.

(** ** The adapters: authentication *)

Ltac explore := run_monad; cbn; repeat (branch; cbn).

Lemma grown_list (A : Type) (l : list A) (a : A) : (l ++ [a])%list <> l.
Proof.
  intros Hl. rewrite <- (app_nil_r l) in Hl at 2.
  apply app_inv_head in Hl. discriminate.
Qed.

Ltac bool_cases :=
  repeat match goal with
         | H : context [truthy_str _] |- _ => revert H
         | H : context [truthy _] |- _ => revert H
         end;
  repeat match goal with
         | |- context [truthy_str ?v] => destruct (truthy_str v)
         | |- context [truthy ?v] => destruct (truthy v)
         end;
  cbn; intros; try congruence.

(** Refute [verified] in a run that sent nothing or got no good answer. *)
Ltac not_verified Hv :=
  let Hpend := fresh "Hpend" in
  let Hsent := fresh "Hsent" in
  let Hok := fresh "Hok" in
  destruct Hv as (? & ? & ? & Hpend & Hsent & Hok);
  cbn in Hpend, Hsent; exfalso;
  first
    [ symmetry in Hsent; exact (@grown_list _ _ _ Hsent)
    | congruence
    | match goal with
      | Hq : pending ?c = inr ?r :: _, Hp : pending ?c = inr ?r' :: _ |- _ =>
          assert (r' = r) by congruence; subst r'
      end;
      revert Hok; unfold identity_ok, identity_body;
      repeat match goal with
             | Heq : ?lhs = _ |- context [?lhs] => rewrite Heq
             end;
      cbn;
      first
        [ discriminate
        | repeat match goal with
                 | Ht : context [truthy _] |- _ => revert Ht
                 end;
          repeat (branch; cbn; try discriminate) ] ].

(** One outcome of [authenticate], reached by case analysis. *)
Ltac auth_leaf :=
  intros <-; cbn;
  split;
  [ split;
    [ intros Hf; first [discriminate Hf | eauto]
    | intros [? Hd]; first [discriminate Hd | reflexivity] ]
  | split;
    [ split;
      [ intros [? Hd];
        first
          [ discriminate Hd
          | do 3 eexists; split; [eassumption | split; [reflexivity |]];
            unfold identity_ok, identity_body;
            repeat match goal with
                   | Heq : ?lhs = _ |- context [?lhs] => rewrite Heq
                   end;
            reflexivity ]
      | intros Hv; first [solve [eauto] | not_verified Hv] ]
    | split;
      [ reflexivity
      | split;
        [ intros [Hm Hs];
          first [exfalso; exact (@grown_list _ _ _ Hs) | bool_cases]
        | intros Hc; first [split; reflexivity | bool_cases] ] ] ] ].

(** One outcome of [authenticate], for what it sent. *)
Ltac request_leaf :=
  intros <-; cbn;
  first
    [ intros _; split; reflexivity
    | bool_cases
    | intros Hc; exfalso; revert Hc; bool_cases ].

Section Authentication.
Context `{Runtime} `{Pydantic}.
Context `{InstagramPoster.Helpers} `{TikTokPoster.Helpers}.
Context `{XPoster.Helpers} `{ThreadsPoster.Helpers}.

(** What one call of [authenticate] does to the flag, to the stored
    token and to the network, for each of the six adapters. *)
Lemma authenticate_facts (p : platform_id) (a k c : option string)
    (ap : option dict) (s : System) :
  forall run,
  authenticate (poster_of p) a k c ap s = run ->
  let s' := fst run in
  (authenticated (base_of p s') = true <-> exists d, snd run = inr d)
  /\ ((exists d, snd run = inr d) <-> verified p (ctx s) (ctx s'))
  /\ access_token (base_of p s')
     = or_str a (assoc (token_variable p) (environ (ctx s)))
  /\ ((snd run = inl (missing_credentials p)
       /\ sent (ctx s') = sent (ctx s))
      <-> credentials_complete p s' = false).
Proof.
  intros run. destruct p.
  - cbn [poster_of authenticate facebook].
    unfold on_facebook, FacebookPoster.authenticate.
    explore; auth_leaf.
  - cbn [poster_of authenticate instagram].
    unfold on_instagram, InstagramPoster.authenticate.
    explore; auth_leaf.
  - cbn [poster_of authenticate tiktok].
    unfold on_tiktok, TikTokPoster.authenticate.
    explore; auth_leaf.
  - cbn [poster_of authenticate x].
    unfold on_x, XPoster.authenticate.
    explore; auth_leaf.
  - cbn [poster_of authenticate threads].
    unfold on_threads, ThreadsPoster.authenticate.
    explore; auth_leaf.
  - cbn [poster_of authenticate youtube].
    unfold on_youtube, YouTubePoster.authenticate.
    explore; auth_leaf.
Qed.

(** In the common shape of [create_post], a failing authentication is
    all that happens: its error is re-raised with the adapter's prefix
    from the state authentication left. *)
Lemma create_post_shape_failure (O : Type) `{PosterClass O} (n : string)
    (auth : M (Local O) dict) (publish : M (Local O) dict)
    (wrap : exn -> exn) (l l1 : Local O) (e : exn) :
  authenticated (base (self l)) = false ->
  auth (entered_local n l) = (l1, inl e) ->
  (enter (CreatePost n) ;;
   TRY
     (authed <- self_authenticated ;;
      (if negb authed then auth ;; ret tt else ret tt) ;;
      publish)
   EXCEPT e => raise (wrap e)) l
  = (l1, inl (wrap e)).
Proof.
  intros Hflag Hauth.
  unfold bind at 1. unfold enter at 1. unfold modify. cbv beta iota.
  fold (entered_local n l).
  unfold try_except, bind, self_authenticated, attr, gets.
  cbn [self entered_local]. rewrite Hflag. cbn [negb].
  fold (entered_local n l). rewrite Hauth. reflexivity.
Qed.

Lemma create_post_calls (p : platform_id) (text : string)
    (media : option (list string)) (sched : option string) (s : System) :
  calls (fst (create_post (poster_of p) text media sched s))
  = (calls s ++ CreatePost (name_of p)
       :: (if authenticated (base_of p s) then []
           else [Authenticate (name_of p)]))%list.
Proof.
  destruct p; cbn [poster_of create_post facebook instagram tiktok x threads
                   youtube];
    unfold on_facebook, on_instagram, on_tiktok, on_x, on_threads,
      on_youtube;
    rewrite zoom_fst; cbn [calls fst name_of base_of].
  - rewrite facebook_create_post_calls. reflexivity.
  - rewrite instagram_create_post_calls. reflexivity.
  - rewrite tiktok_create_post_calls. reflexivity.
  - rewrite x_create_post_calls. reflexivity.
  - rewrite threads_create_post_calls. reflexivity.
  - rewrite youtube_create_post_calls. reflexivity.
Qed.

Lemma create_post_failed_authentication (p : platform_id) (text : string)
    (media : option (list string)) (sched : option string) (s : System)
    (e : exn) :
  authenticated (base_of p s) = false ->
  snd (authenticate (poster_of p) None None None None (entered p s)) = inl e ->
  create_post (poster_of p) text media sched s
  = (fst (authenticate (poster_of p) None None None None (entered p s)),
     inl (post_error p e)).
Proof.
  destruct p; cbn [poster_of create_post authenticate facebook instagram
                   tiktok x threads youtube base_of post_error];
    unfold on_facebook, on_instagram, on_tiktok, on_x, on_threads,
      on_youtube;
    rewrite !zoom_fst; cbn [fst snd ctx calls entered name_of facebook_poster
                              instagram_poster tiktok_poster x_poster
                              threads_poster youtube_poster];
    intros Hflag Hauth;
    match goal with
    | Ha : snd (?auth ?l0) = inl e |- _ =>
        destruct (auth l0) as [l1 r] eqn:Hrun; cbn [snd fst] in *; subst r
    end.
  - unfold FacebookPoster.create_post.
    erewrite create_post_shape_failure; [reflexivity | exact Hflag | exact Hrun].
  - unfold InstagramPoster.create_post.
    erewrite create_post_shape_failure; [reflexivity | exact Hflag | exact Hrun].
  - unfold TikTokPoster.create_post.
    erewrite create_post_shape_failure; [reflexivity | exact Hflag | exact Hrun].
  - unfold XPoster.create_post.
    erewrite create_post_shape_failure; [reflexivity | exact Hflag | exact Hrun].
  - unfold ThreadsPoster.create_post.
    erewrite create_post_shape_failure; [reflexivity | exact Hflag | exact Hrun].
  - unfold YouTubePoster.create_post.
    erewrite create_post_shape_failure; [reflexivity | exact Hflag | exact Hrun].
Qed.

(** With complete credentials every adapter contacts the provider: one
    request goes out, its identity request, and takes the next answer. *)
Lemma authenticate_contacts (p : platform_id) (a k c : option string)
    (ap : option dict) (s : System) :
  forall run,
  authenticate (poster_of p) a k c ap s = run ->
  let s' := fst run in
  credentials_complete p s' = true ->
  sent (ctx s') = (sent (ctx s) ++ [identity_request p s'])%list
  /\ pending (ctx s') = tl (pending (ctx s)).
Proof.
  intros run. destruct p.
  - cbn [poster_of authenticate facebook].
    unfold on_facebook, FacebookPoster.authenticate.
    explore; request_leaf.
  - cbn [poster_of authenticate instagram].
    unfold on_instagram, InstagramPoster.authenticate.
    explore; request_leaf.
  - cbn [poster_of authenticate tiktok].
    unfold on_tiktok, TikTokPoster.authenticate.
    explore; request_leaf.
  - cbn [poster_of authenticate x].
    unfold on_x, XPoster.authenticate.
    explore; request_leaf.
  - cbn [poster_of authenticate threads].
    unfold on_threads, ThreadsPoster.authenticate.
    explore; request_leaf.
  - cbn [poster_of authenticate youtube].
    unfold on_youtube, YouTubePoster.authenticate.
    explore; request_leaf.
Qed.

(** With incomplete credentials nothing is sent and no answer taken. *)
Lemma authenticate_silent (p : platform_id) (a k c : option string)
    (ap : option dict) (s : System) :
  forall run,
  authenticate (poster_of p) a k c ap s = run ->
  let s' := fst run in
  credentials_complete p s' = false ->
  sent (ctx s') = sent (ctx s) /\ pending (ctx s') = pending (ctx s).
Proof.
  intros run. destruct p.
  - cbn [poster_of authenticate facebook].
    unfold on_facebook, FacebookPoster.authenticate.
    explore; request_leaf.
  - cbn [poster_of authenticate instagram].
    unfold on_instagram, InstagramPoster.authenticate.
    explore; request_leaf.
  - cbn [poster_of authenticate tiktok].
    unfold on_tiktok, TikTokPoster.authenticate.
    explore; request_leaf.
  - cbn [poster_of authenticate x].
    unfold on_x, XPoster.authenticate.
    explore; request_leaf.
  - cbn [poster_of authenticate threads].
    unfold on_threads, ThreadsPoster.authenticate.
    explore; request_leaf.
  - cbn [poster_of authenticate youtube].
    unfold on_youtube, YouTubePoster.authenticate.
    explore; request_leaf.
Qed.

(** C8 (as amended).  A call of an adapter's [authenticate] contacts the
    provider exactly when the credentials the adapter then holds are
    complete: it sends its identity request, and nothing else.  The
    [authenticated] flag is true after the call if and only if that
    request went out and was answered with status 200 and a body the
    adapter reads an identity from (a JSON object; for YouTube one that
    lists a channel), which is also exactly when the call returns; a call
    that raises leaves the flag false.  [create_post] enters
    [authenticate] right after being entered whenever the flag is false
    (and does not enter it otherwise), and when that authentication fails
    nothing else is done: its error is re-raised. *)
Theorem C8_authenticated_flag (p : platform_id) (a k c : option string)
    (ap : option dict) (text : string) (media : option (list string))
    (sched : option string) (s : System) :
  let run := authenticate (poster_of p) a k c ap s in
  let s' := fst run in
  let post := create_post (poster_of p) text media sched s in
  let first_auth :=
    authenticate (poster_of p) None None None None (entered p s) in
  (if credentials_complete p s'
   then sent (ctx s') = (sent (ctx s) ++ [identity_request p s'])%list
        /\ pending (ctx s') = tl (pending (ctx s))
   else sent (ctx s') = sent (ctx s) /\ pending (ctx s') = pending (ctx s))
  /\ (authenticated (base_of p s') = true
      <-> credentials_complete p s' = true /\ identity_accepted p (ctx s))
  /\ (authenticated (base_of p s') = true <-> exists d, snd run = inr d)
  /\ (forall e, snd run = inl e -> authenticated (base_of p s') = false)
  /\ calls (fst post)
     = (calls s ++ CreatePost (name_of p)
          :: (if authenticated (base_of p s) then []
              else [Authenticate (name_of p)]))%list
  /\ (authenticated (base_of p s) = false ->
      forall e, snd first_auth = inl e ->
                post = (fst first_auth, inl (post_error p e))).
Proof.
  intros run s' post first_auth.
  destruct (authenticate_facts p a k c ap s eq_refl)
    as (Hflag & Hver & _ & Hmiss).
  pose proof (authenticate_contacts p a k c ap s eq_refl) as Hsend.
  pose proof (authenticate_silent p a k c ap s eq_refl) as Hquiet.
  fold run in Hflag, Hver, Hmiss, Hsend, Hquiet.
  fold s' in Hflag, Hver, Hmiss, Hsend, Hquiet. cbv zeta in Hsend, Hquiet.
  split; [| split; [| split; [exact Hflag | split; [| split]]]].
  - destruct (credentials_complete p s'); [apply Hsend | apply Hquiet];
      reflexivity.
  - rewrite Hflag, Hver. split.
    + intros (answer & rest & req & Hpend & Hsent & Hok). split.
      * destruct (credentials_complete p s') eqn:Hc; [reflexivity |].
        destruct (proj2 Hmiss eq_refl) as [_ Hs]. rewrite Hs in Hsent.
        symmetry in Hsent. destruct (@grown_list _ _ _ Hsent).
      * exists answer, rest. split; assumption.
    + intros (Hc & answer & rest & Hpend & Hok).
      exists answer, rest, (identity_request p s').
      split; [exact Hpend |]. split; [exact (proj1 (Hsend Hc)) | exact Hok].
  - intros e He. destruct (authenticated (base_of p s')) eqn:Hf;
      [| reflexivity].
    destruct (proj1 Hflag eq_refl) as [d Hd]. congruence.
  - apply create_post_calls.
  - intros Hf e He. apply create_post_failed_authentication; assumption.
Qed.

(** C4 (as amended).  For every adapter, [authenticate] stores as access
    token the explicitly passed token when that is a non-empty string and
    otherwise the value of the adapter's [*_ACCESS_TOKEN] environment
    variable.  It fails with the missing-credentials error, without
    sending any request, exactly when the credentials it then holds are
    incomplete: no non-empty token for Facebook, TikTok and YouTube; no
    non-empty token or no account / user id for Instagram and Threads;
    neither a bearer token nor both access token and secret for X. *)
Theorem C4_token_resolution (p : platform_id) (a k c : option string)
    (ap : option dict) (s : System) :
  let run := authenticate (poster_of p) a k c ap s in
  let s' := fst run in
  access_token (base_of p s')
  = match a with
    | Some (String _ _) => a
    | _ => assoc (token_variable p) (environ (ctx s))
    end
  /\ ((snd run = inl (missing_credentials p)
       /\ sent (ctx s') = sent (ctx s))
      <-> credentials_complete p s' = false).
Proof.
  intros run s'.
  destruct (authenticate_facts p a k c ap s eq_refl)
    as (_ & _ & Htok & Hmiss).
  fold run in Htok, Hmiss. fold s' in Htok, Hmiss.
  split; [| exact Hmiss].
  rewrite Htok. destruct a as [[| ch t] |]; reflexivity.
Qed.

End Authentication.

(** * Further properties of the code *)

(** ** main.py: the comma-separated media list *)

Lemma split_commas_nonempty (s : string) : split_commas s <> [].
Proof.
  destruct s as [| c rest]; simpl; [discriminate |].
  destruct (Ascii.eqb c ","%char); [discriminate |].
  destruct (split_commas rest); discriminate.
Qed.

(** X1. Splitting a string at its commas loses nothing: joining the
    parts with commas gives the string back, no part contains a comma,
    and there is one part more than there are commas (so the empty string
    gives one empty part). *)
Theorem split_commas_round_trip (s : string) :
  join_commas (split_commas s) = s
  /\ Forall (fun part => has_comma part = false) (split_commas s)
  /\ length (split_commas s) = S (count_commas s).
Proof.
  induction s as [| c rest (IHj & IHf & IHl)]; simpl.
  - repeat split. constructor; [reflexivity | constructor].
  - destruct (Ascii.eqb_spec c ","%char) as [-> | Hc].
    + pose proof (split_commas_nonempty rest) as Hne.
      split; [| split].
      * destruct (split_commas rest) as [| hd tl]; [congruence |].
        change (join_commas (EmptyString :: hd :: tl))
          with (String ","%char (join_commas (hd :: tl))).
        rewrite IHj. reflexivity.
      * constructor; [reflexivity | exact IHf].
      * simpl. rewrite IHl. reflexivity.
    + pose proof (split_commas_nonempty rest) as Hne.
      destruct (split_commas rest) as [| hd tl]; [congruence |].
      split; [| split].
      * rewrite <- IHj. destruct tl; reflexivity.
      * inversion IHf as [| ? ? Hhd Htl]; subst.
        constructor; [| exact Htl]. simpl.
        destruct (Ascii.eqb_spec c ","%char); [contradiction |]. exact Hhd.
      * simpl in *. exact IHl.
Qed.

(** X2. Conversely a non-empty list of comma-free parts is recovered
    from its comma-joined form. *)
Theorem join_commas_round_trip (parts : list string) :
  parts <> [] ->
  Forall (fun part => has_comma part = false) parts ->
  split_commas (join_commas parts) = parts.
Proof.
  induction parts as [| a rest IH]; intros Hne Hall; [congruence |].
  inversion Hall as [| ? ? Ha Hrest]; subst. clear Hne Hall.
  destruct rest as [| b rest'].
  - simpl. clear IH Hrest. induction a as [| c a IHa]; [reflexivity |].
    simpl in *. destruct (Ascii.eqb c ","%char); [discriminate |].
    rewrite IHa by exact Ha. reflexivity.
  - specialize (IH ltac:(discriminate) Hrest).
    change (join_commas (a :: b :: rest'))
      with (a ++ String ","%char (join_commas (b :: rest'))).
    remember (join_commas (b :: rest')) as j eqn:Hj. clear Hj.
    induction a as [| c a IHa].
    + simpl. rewrite IH. reflexivity.
    + simpl in *. destruct (Ascii.eqb c ","%char); [discriminate |].
      rewrite IHa by exact Ha. reflexivity.
Qed.

Lemma join_commas_witness :
  ["a"; "b"] <> []
  /\ Forall (fun part => has_comma part = false) ["a"; "b"]
  /\ split_commas (join_commas ["a"; "b"]) = ["a"; "b"].
Proof.
  split; [discriminate |].
  split; [repeat constructor |].
  apply join_commas_round_trip; [discriminate | repeat constructor].
Defined.

(** ** platforms/base_poster.py *)

Lemma prefix_spec (p s : string) :
  String.prefix p s = true <-> exists rest, s = p ++ rest.
Proof.
  revert s. induction p as [| c p IH]; intros s.
  - split; [intros _; exists s; reflexivity | destruct s; reflexivity].
  - destruct s as [| d s]; cbn [String.prefix append].
    + split; [discriminate | intros [r Hr]; discriminate].
    + destruct (Ascii.ascii_dec c d) as [-> | Hcd].
      * split.
        -- intros Hp. apply IH in Hp. destruct Hp as [r ->]. exists r.
           reflexivity.
        -- intros [r Hr]. apply IH. exists r. congruence.
      * split; [discriminate | intros [r Hr]; congruence].
Qed.

(** X3. [validate_media_url] accepts exactly the strings that start with
    "http://" or "https://"; in particular it rejects the empty string. *)
Theorem validate_media_url_spec (url : string) :
  validate_media_url url = true
  <-> exists rest, url = "http://" ++ rest \/ url = "https://" ++ rest.
Proof.
  unfold validate_media_url. split.
  - destruct (str_is_empty url); [discriminate |].
    rewrite orb_true_iff, !prefix_spec.
    intros [[r Hr] | [r Hr]]; exists r; auto.
  - intros [r [Hr | Hr]]; subst url; simpl str_is_empty; cbv iota;
      rewrite orb_true_iff, !prefix_spec;
      [left | right]; exists r; reflexivity.
Qed.

(** ** main.py: how the endpoints compose *)

Section EndpointProperties.
Context `{Runtime} `{Pydantic}.
Context `{InstagramPoster.Helpers} `{TikTokPoster.Helpers}.
Context `{XPoster.Helpers} `{ThreadsPoster.Helpers}.

Lemma registry_lookup (p : platform_id) :
  assoc (name_of p) platform_posters = Some (poster_of p).
Proof. destruct p; reflexivity. Qed.

Lemma registry_poster (n : string) (poster : PosterRef) :
  assoc n platform_posters = Some poster ->
  exists p, n = name_of p /\ poster = poster_of p.
Proof.
  unfold platform_posters. cbn [assoc].
  repeat match goal with
         | |- context [String.eqb n ?k] =>
             destruct (String.eqb_spec n k) as [-> | _]
         end;
    intros Hp; inversion Hp; subst.
  - exists Facebook. auto.
  - exists Instagram. auto.
  - exists TikTok. auto.
  - exists X. auto.
  - exists Threads. auto.
  - exists YouTube. auto.
Qed.

(** The list of outcomes built so far is only ever extended. *)
Lemma post_loop_acc (content : PostContent) (todo : list string) :
  forall results s,
    post_loop content todo results s
    = (fst (post_loop content todo [] s),
       match snd (post_loop content todo [] s) with
       | inr out => inr (results ++ out)%list
       | inl e => inl e
       end).
Proof.
  induction todo as [| n rest IH]; intros results s; cbn [post_loop].
  - cbn. rewrite app_nil_r. reflexivity.
  - destruct (assoc n platform_posters) as [poster |].
    + unfold bind. destruct (post_with poster content n s) as [s1 [e | o]];
        [reflexivity |].
      rewrite (IH (results ++ [o])%list), (IH ([] ++ [o])%list). cbn [fst snd].
      destruct (snd (post_loop content rest [] s1)); [reflexivity |].
      rewrite <- app_assoc. reflexivity.
    + rewrite (IH (results ++ [not_supported n])%list),
        (IH ([] ++ [not_supported n])%list). cbn [fst snd].
      destruct (snd (post_loop content rest [] s)); [reflexivity |].
      rewrite <- app_assoc. reflexivity.
Qed.

Lemma post_loop_app (content : PostContent) (a b : list string) :
  forall results s,
    post_loop content (a ++ b) results s
    = match post_loop content a results s with
      | (s1, inr out) => post_loop content b out s1
      | (s1, inl e) => (s1, inl e)
      end.
Proof.
  induction a as [| n rest IH]; intros results s; cbn [app post_loop].
  - reflexivity.
  - destruct (assoc n platform_posters) as [poster |]; [| apply IH].
    unfold bind. destruct (post_with poster content n s) as [s1 [e | o]];
      [reflexivity | apply IH].
Qed.

(** X4. A batch over the platform list [a ++ b] is the batch over [a]
    followed, from the state it leaves, by the batch over [b]: the
    outcomes are concatenated and the final state is that of the second
    batch. *)
Theorem batch_splits (content : PostContent) (a b : list string)
    (s : System) :
  exists s1 out1 s2 out2,
    post_to_platforms (with_platforms a content) s = (s1, inr out1)
    /\ post_to_platforms (with_platforms b content) s1 = (s2, inr out2)
    /\ post_to_platforms (with_platforms (a ++ b) content) s
       = (s2, inr (out1 ++ out2)%list).
Proof.
  unfold post_to_platforms. cbn [platforms with_platforms].
  rewrite !post_loop_fields.
  destruct (post_loop_spec content a [] s) as (s1 & out1 & Ha & _).
  destruct (post_loop_spec content b [] s1) as (s2 & out2 & Hb & _).
  cbn [app] in Ha, Hb.
  exists s1, out1, s2, out2. rewrite post_loop_fields.
  split; [exact Ha |]. split; [exact Hb |].
  rewrite post_loop_app, Ha, post_loop_acc, Hb. reflexivity.
Qed.

(** X5. The single-platform endpoint always answers.  For an identifier
    without adapter it refuses with status 400 and leaves the whole state
    untouched; for a registered one it answers an outcome under that
    identifier and has entered that adapter's [create_post], whatever the
    adapter did. *)
Theorem single_endpoint_answers (n text : string)
    (media schedule : option string) (s : System) :
  exists s' reply,
    post_to_single_platform n text media schedule s = (s', inr reply)
    /\ (supported n = false ->
        s' = s
        /\ reply = PostRefused 400 ("Platform '" ++ n ++ "' is not supported"))
    /\ (supported n = true ->
        exists o, reply = Posted o /\ platform o = n
                  /\ created (calls s') = (created (calls s) ++ [n])%list).
Proof.
  unfold post_to_single_platform, supported, mem_key.
  destruct (assoc n platform_posters) as [poster |] eqn:Hp; cbn [is_not_None].
  - unfold try_except, bind.
    match goal with
    | |- context [create_post poster text ?m schedule s] =>
        pose proof (@registry_created _ _ _ _ _ n poster text m schedule s Hp)
          as Hc;
        destruct (create_post poster text m schedule s) as [s1 [e | d]]
    end; cbn [fst] in Hc.
    + do 2 eexists. split; [reflexivity |]. split; [discriminate |].
      intros _. eexists. split; [reflexivity |]. split; [reflexivity | exact Hc].
    + unfold new_PostResponse.
      destruct (dict_get "post_id" d); cbn; try destruct (str_field _); cbn;
        (do 2 eexists; split; [reflexivity |]; split; [discriminate |];
         intros _; eexists; split; [reflexivity |];
         split; [reflexivity | exact Hc]).
  - exists s. eexists. split; [reflexivity |]. split; [auto | discriminate].
Qed.

(** X6. The single-platform endpoint agrees with a batch of one: for a
    registered identifier both leave the same state and report the same
    outcome, the batch being given the comma-separated media string as
    the list of its parts (no list when the string is empty or absent). *)
Theorem single_is_batch_of_one (n caption : string)
    (media schedule : option string) (s : System) :
  supported n = true ->
  exists s' o,
    post_to_single_platform n caption media schedule s = (s', inr (Posted o))
    /\ post_to_platforms
         {| text := caption; platforms := [n];
            media_urls := match media with
                          | Some urls =>
                              if negb (str_is_empty urls)
                              then Some (split_commas urls) else None
                          | None => None
                          end;
            schedule_time := schedule |} s
       = (s', inr [o]).
Proof.
  unfold supported, mem_key, post_to_single_platform, post_to_platforms.
  cbn [platforms post_loop].
  destruct (assoc n platform_posters) as [poster |]; [intros _ | discriminate].
  unfold post_with, try_except, bind. cbn [text media_urls schedule_time].
  match goal with
  | |- context [create_post poster caption ?m schedule s] =>
      destruct (create_post poster caption m schedule s) as [s1 [e | d]]
  end.
  - do 2 eexists. split; reflexivity.
  - unfold new_PostResponse.
    destruct (dict_get "post_id" d); cbn; try destruct (str_field _); cbn;
      (do 2 eexists; split; reflexivity).
Qed.

(** X7. The authentication endpoint answers success exactly when the
    adapter's [authenticated] flag is true afterwards; otherwise it
    refuses with status 401 and a detail that starts with
    "Authentication failed: ". *)
Theorem auth_endpoint_tracks_flag (p : platform_id)
    (credentials : AuthCredentials) (s : System) :
  exists s' reply,
    authenticate_platform (name_of p) credentials s = (s', inr reply)
    /\ ((exists message details,
            reply = AuthOk (name_of p) message details)
        <-> authenticated (base_of p s') = true)
    /\ ((exists e, reply = AuthRefused 401 ("Authentication failed: " ++ e))
        <-> authenticated (base_of p s') = false).
Proof.
  unfold authenticate_platform. rewrite registry_lookup.
  unfold try_except, bind.
  destruct (authenticate_facts p (cred_access_token credentials)
              (cred_api_key credentials) (cred_api_secret credentials)
              (cred_additional_params credentials) s eq_refl)
    as (Hflag & _).
  destruct (authenticate (poster_of p) (cred_access_token credentials)
              (cred_api_key credentials) (cred_api_secret credentials)
              (cred_additional_params credentials) s) as [s1 [e | d]];
    cbn [fst snd] in *; do 2 eexists; (split; [reflexivity |]).
  - assert (Hf : authenticated (base_of p s1) = false).
    { destruct (authenticated (base_of p s1)); [| reflexivity].
      destruct (proj1 Hflag eq_refl) as [d Hd]. discriminate. }
    rewrite Hf. split; split; try discriminate; eauto.
    intros (m & d & Hd). discriminate.
  - assert (Hf : authenticated (base_of p s1) = true)
      by (apply Hflag; eauto).
    rewrite Hf. split; split; try discriminate; eauto.
    intros [e He]. discriminate.
Qed.

End EndpointProperties.

(** ** The adapter objects across requests *)

Section SelfFrame.
Context {O : Type}.

Lemma self_ret (A : Type) (a : A) : keeps_self (O:=O) (ret a).
Proof. intros l. reflexivity. Qed.

Lemma self_raise (A : Type) (e : exn) : keeps_self (O:=O) (A:=A) (raise e).
Proof. intros l. reflexivity. Qed.

Lemma self_attr (A : Type) (f : O -> A) : keeps_self (attr f).
Proof. intros l. reflexivity. Qed.

Lemma self_io (A : Type) (m : M Ctx A) : keeps_self (O:=O) (io m).
Proof.
  intros l. unfold io, zoom. destruct (m (lctx l)) as [c r]. reflexivity.
Qed.

Lemma self_json_of (r : response) : keeps_self (O:=O) (json_of r).
Proof. intros l. unfold json_of. destruct (json r); reflexivity. Qed.

Lemma self_py_get (v : pyval) (k : string) : keeps_self (O:=O) (py_get v k).
Proof. intros l. destruct v; reflexivity. Qed.

Lemma self_py_get_default (v : pyval) (k : string) (d : pyval) :
  keeps_self (O:=O) (py_get_default v k d).
Proof. intros l. destruct v; reflexivity. Qed.

Lemma self_bind (A B : Type) (m : M (Local O) A) (k : A -> M (Local O) B) :
  keeps_self m -> (forall a, keeps_self (k a)) -> keeps_self (bind m k).
Proof.
  intros Hm Hk l. unfold bind. specialize (Hm l).
  destruct (m l) as [l1 [e | a]]; simpl in *; [exact Hm |].
  rewrite Hk. exact Hm.
Qed.

Lemma self_try (A : Type) (m : M (Local O) A) (h : exn -> M (Local O) A) :
  keeps_self m -> (forall e, keeps_self (h e)) -> keeps_self (try_except m h).
Proof.
  intros Hm Hh l. unfold try_except. specialize (Hm l).
  destruct (m l) as [l1 [e | a]]; simpl in *; [| exact Hm].
  rewrite Hh. exact Hm.
Qed.

End SelfFrame.

Ltac frame_self :=
  unfold self_access_token, self_authenticated, self_api_key,
    self_api_secret;
  repeat (cbv zeta;
          first
            [ match goal with
              | |- keeps_self (match ?x with _ => _ end) => destruct x
              end
            | simple apply self_bind; [| intros ?]
            | simple apply self_try; [| intros ?]
            | simple apply self_ret | simple apply self_raise
            | simple apply self_attr | simple apply self_io
            | simple apply self_json_of | simple apply self_py_get
            | simple apply self_py_get_default ]).

(** In the common shape of [create_post], the adapter object changes only
    through the authentication step. *)
Lemma create_post_shape_self (O : Type) `{PosterClass O} (n : string)
    (auth : M (Local O) dict) (publish : M (Local O) dict)
    (wrap : exn -> exn) (l : Local O) :
  keeps_self publish ->
  self (fst ((enter (CreatePost n) ;;
              TRY
                (authed <- self_authenticated ;;
                 (if negb authed then auth ;; ret tt else ret tt) ;;
                 publish)
              EXCEPT e => raise (wrap e)) l))
  = if authenticated (base (self l)) then self l
    else self (fst (auth (entered_local n l))).
Proof.
  intros Hpub.
  unfold bind at 1. unfold enter at 1. unfold modify. cbv beta iota.
  fold (entered_local n l).
  unfold try_except, bind, self_authenticated, attr, gets.
  cbn [self entered_local].
  destruct (authenticated (base (self l))); cbn [negb].
  - unfold ret at 1. cbv beta iota. fold (entered_local n l).
    specialize (Hpub (entered_local n l)).
    destruct (publish (entered_local n l)) as [l1 [e | d]]; exact Hpub.
  - fold (entered_local n l).
    destruct (auth (entered_local n l)) as [l1 [e | d]]; cbn [fst];
      [reflexivity |].
    unfold ret at 1. cbv beta iota.
    specialize (Hpub l1). destruct (publish l1) as [l2 [e | d']]; exact Hpub.
Qed.

Lemma platform_id_eq_dec (p q : platform_id) : {p = q} + {p <> q}.
Proof. decide equality. Qed.

Section AdapterObjects.
Context `{Runtime} `{Pydantic}.
Context `{InstagramPoster.Helpers} `{TikTokPoster.Helpers}.
Context `{XPoster.Helpers} `{ThreadsPoster.Helpers}.

Lemma sound_same_adapters (s1 s2 : System) :
  same_adapters s1 s2 -> credentials_sound s2 -> credentials_sound s1.
Proof.
  intros (Hf & Hi & Ht & Hx & Hth & Hy) Hs q.
  specialize (Hs q). revert Hs.
  destruct q; unfold credentials_complete, base_of;
    rewrite ?Hf, ?Hi, ?Ht, ?Hx, ?Hth, ?Hy; auto.
Qed.

(** X8. [create_post] touches the six adapter objects only by
    authenticating: on an adapter that is already authenticated every
    adapter object is left as it was, and otherwise they end as the
    implied [authenticate()] call left them. *)
Theorem create_post_changes_adapters_only_by_authenticating
    (p : platform_id) (caption : string) (media : option (list string))
    (schedule : option string) (s : System) :
  same_adapters
    (fst (create_post (poster_of p) caption media schedule s))
    (if authenticated (base_of p s) then s
     else fst (authenticate (poster_of p) None None None None (entered p s))).
Proof.
  destruct p;
    cbn [poster_of create_post authenticate facebook instagram tiktok x
         threads youtube base_of];
    unfold on_facebook, on_instagram, on_tiktok, on_x, on_threads,
      on_youtube;
    rewrite !zoom_fst; cbn [fst].
  - unfold FacebookPoster.create_post.
    erewrite create_post_shape_self by frame_self. cbn [self base].
    destruct (authenticated _); repeat split.
  - unfold InstagramPoster.create_post.
    erewrite create_post_shape_self by frame_self. cbn [self base].
    destruct (authenticated _); repeat split.
  - unfold TikTokPoster.create_post.
    erewrite create_post_shape_self by frame_self. cbn [self base].
    destruct (authenticated _); repeat split.
  - unfold XPoster.create_post.
    erewrite create_post_shape_self by frame_self. cbn [self base].
    destruct (authenticated _); repeat split.
  - unfold ThreadsPoster.create_post.
    erewrite create_post_shape_self by frame_self. cbn [self base].
    destruct (authenticated _); repeat split.
  - unfold YouTubePoster.create_post.
    erewrite create_post_shape_self by frame_self. cbn [self base].
    destruct (authenticated _); repeat split.
Qed.

Lemma authenticate_others (p q : platform_id) (a k c : option string)
    (ap : option dict) (s : System) :
  p <> q ->
  base_of q (fst (authenticate (poster_of p) a k c ap s)) = base_of q s
  /\ credentials_complete q (fst (authenticate (poster_of p) a k c ap s))
     = credentials_complete q s.
Proof.
  intros Hpq.
  destruct p, q; try congruence;
    cbn [poster_of authenticate facebook instagram tiktok x threads youtube];
    unfold on_facebook, on_instagram, on_tiktok, on_x, on_threads,
      on_youtube;
    rewrite !zoom_fst; split; reflexivity.
Qed.

Lemma authenticate_sound (p : platform_id) (a k c : option string)
    (ap : option dict) (s : System) :
  credentials_sound s ->
  credentials_sound (fst (authenticate (poster_of p) a k c ap s)).
Proof.
  intros Hs q Hq. destruct (platform_id_eq_dec p q) as [<- | Hpq].
  - destruct (authenticate_facts p a k c ap s eq_refl)
      as (Hflag & _ & _ & Hmiss).
    destruct (credentials_complete p _) eqn:Hc; [reflexivity |].
    apply Hflag in Hq. destruct Hq as [d Hd].
    destruct (proj2 Hmiss eq_refl) as [He _]. congruence.
  - destruct (authenticate_others a k c ap s Hpq) as [Hb Hc].
    rewrite Hc. apply Hs. rewrite <- Hb. exact Hq.
Qed.

Lemma create_post_sound (p : platform_id) (caption : string)
    (media : option (list string)) (schedule : option string) (s : System) :
  credentials_sound s ->
  credentials_sound (fst (create_post (poster_of p) caption media schedule s)).
Proof.
  intros Hs.
  eapply sound_same_adapters;
    [apply create_post_changes_adapters_only_by_authenticating |].
  destruct (authenticated (base_of p s)); [exact Hs |].
  apply authenticate_sound.
  eapply sound_same_adapters; [| exact Hs]. repeat split.
Qed.

Lemma post_with_state (poster : PosterRef) (content : PostContent)
    (n : string) (s : System) :
  fst (post_with poster content n s)
  = fst (create_post poster (text content) (media_urls content)
           (schedule_time content) s).
Proof.
  unfold post_with, try_except, bind.
  destruct (create_post poster _ _ _ s) as [s1 [e | d]]; [reflexivity |].
  unfold new_PostResponse.
  destruct (dict_get "post_id" d); cbn; try destruct (str_field _);
    reflexivity.
Qed.

Lemma post_loop_sound (content : PostContent) (todo : list string) :
  forall results s,
    credentials_sound s ->
    credentials_sound (fst (post_loop content todo results s)).
Proof.
  induction todo as [| n rest IH]; intros results s Hs; cbn [post_loop];
    [exact Hs |].
  destruct (assoc n platform_posters) as [poster |] eqn:Hn; [| apply IH, Hs].
  apply registry_poster in Hn. destruct Hn as (p & -> & ->).
  unfold bind.
  pose proof (post_with_state (poster_of p) content (name_of p) s) as Hst.
  destruct (post_with (poster_of p) content (name_of p) s) as [s1 [e | o]];
    cbn [fst] in *; subst s1; [| apply IH]; apply create_post_sound, Hs.
Qed.

(** X9. A request to one of the posting and authentication endpoints,
    handled from its start to its end with no other request served in
    between, keeps the adapters' credentials sound: if every adapter
    flagged as authenticated holds complete credentials (a non-empty
    access token; for Instagram and Threads also an account / user id;
    for X a bearer token or a non-empty token with its secret) when the
    handler starts, so it is when the handler has answered.  Requests
    whose handlers interleave at an [await] on the shared adapters are
    not covered. *)
Theorem handlers_keep_credentials_sound (s : System) :
  credentials_sound s ->
  (forall content, credentials_sound (fst (post_to_platforms content s)))
  /\ (forall n caption media schedule,
      credentials_sound
        (fst (post_to_single_platform n caption media schedule s)))
  /\ (forall n credentials,
      credentials_sound (fst (authenticate_platform n credentials s))).
Proof.
  intros Hs. split; [| split].
  - intros content. apply post_loop_sound, Hs.
  - intros n caption media sch. unfold post_to_single_platform.
    destruct (assoc n platform_posters) as [poster |] eqn:Hn; [| exact Hs].
    apply registry_poster in Hn. destruct Hn as (p & -> & ->).
    unfold try_except, bind.
    match goal with
    | |- context [create_post (poster_of p) caption ?m sch s] =>
        pose proof (create_post_sound p caption m sch Hs) as Hs1;
        destruct (create_post (poster_of p) caption m sch s) as [s1 [e | d]]
    end; cbn [fst] in *; [exact Hs1 |].
    unfold new_PostResponse.
    destruct (dict_get "post_id" d); cbn; try destruct (str_field _);
      exact Hs1.
  - intros n credentials. unfold authenticate_platform.
    destruct (assoc n platform_posters) as [poster |] eqn:Hn; [| exact Hs].
    apply registry_poster in Hn. destruct Hn as (p & -> & ->).
    unfold try_except, bind.
    pose proof (authenticate_sound p (cred_access_token credentials)
                  (cred_api_key credentials) (cred_api_secret credentials)
                  (cred_additional_params credentials) Hs) as Hs1.
    destruct (authenticate (poster_of p) _ _ _ _ s) as [s1 [e | d]];
      exact Hs1.
Qed.

End AdapterObjects.

(** ** The adapters: edge behaviour of [create_post] *)



Section YouTubeRequests.
Context `{Runtime}.






End YouTubeRequests.

Section AdapterEdges.
Context `{Runtime} `{Pydantic}.
Context `{InstagramPoster.Helpers} `{TikTokPoster.Helpers}.
Context `{XPoster.Helpers} `{ThreadsPoster.Helpers}.

(** X10. Instagram, TikTok and YouTube refuse a post without media: on an
    authenticated adapter, [create_post] with no media list or an empty
    one raises the adapter's media-required error (under its post-error
    prefix) and does nothing else - no request is sent and no adapter
    object changes. *)
Theorem create_post_without_media (p : platform_id) (msg : exn)
    (caption : string) (media : option (list string))
    (schedule : option string) (s : System) :
  media_required p = Some msg ->
  authenticated (base_of p s) = true ->
  truthy_list media = false ->
  create_post (poster_of p) caption media schedule s
  = (entered p s, inl (post_error p msg)).
Proof.
  destruct p; cbn [media_required]; intros Hm Ha Hl; inversion Hm; subst msg;
    cbn [poster_of create_post instagram tiktok youtube base_of base] in *;
    unfold on_instagram, on_tiktok, on_youtube,
      InstagramPoster.create_post, TikTokPoster.create_post,
      YouTubePoster.create_post;
    run_monad; cbn in Ha |- *; rewrite Ha; cbn;
    destruct media as [[| u more] |]; try discriminate Hl; reflexivity.
Qed.

(** X12. When the download of the video does not answer 200, the YouTube
    adapter fails with "Failed to download video" (under the upload and
    post error prefixes) after that single request: nothing is sent to
    the provider. *)
Theorem youtube_failed_download (caption video_url : string)
    (more : list string) (schedule : option string)
    (l : Local YouTubePoster.t) (r : response) (rest : list (exn + response)) :
  authenticated (base (self l)) = true ->
  pending (lctx l) = inr r :: rest ->
  status r <> 200 ->
  let run := YouTubePoster.create_post caption (Some (video_url :: more))
               schedule l in
  snd run
  = inl "YouTube post error: Video upload error: Failed to download video"
  /\ sent (lctx (fst run)) = (sent (lctx l) ++ [GET video_url [] []])%list
  /\ pending (lctx (fst run)) = rest
  /\ self (fst run) = self l.
Proof.
  intros Ha Hp Hs. cbn in Ha.
  apply Z.eqb_neq in Hs.
  unfold YouTubePoster.create_post, YouTubePoster._upload_video.
  run_monad. cbn. rewrite Ha. cbn. rewrite Hp. cbn. rewrite Hs. cbn.
  repeat split.
Qed.

(** X13. The metadata of a YouTube upload is scheduled exactly when a
    non-empty schedule time is given: then the privacy status is forced
    to "private" and [publishAt] is that time; otherwise the privacy
    status is the requested one and there is no [publishAt].  Title and
    description are passed through. *)
Theorem youtube_metadata_scheduling (title description category privacy
    : string) (schedule : option string) :
  exists snippet status,
    YouTubePoster.metadata title description category privacy schedule
    = PDict [("snippet", PDict snippet); ("status", PDict status)]
    /\ assoc "title" snippet = Some (PStr title)
    /\ assoc "description" snippet = Some (PStr description)
    /\ assoc "privacyStatus" status
       = Some (PStr (if truthy_str schedule then "private" else privacy))
    /\ assoc "publishAt" status
       = (if truthy_str schedule then Some (of_opt schedule) else None).
Proof.
  unfold YouTubePoster.metadata.
  destruct (truthy_str schedule); do 2 eexists;
    (split; [reflexivity | repeat split]).
Qed.

(** X14. A Facebook post on an authenticated adapter succeeds exactly
    when the provider answers the feed request with status 200 or 201 and
    a JSON object; the returned [post_id] is that object's [id].  Any
    other answer (another 2xx included) is raised as a post error. *)
Theorem facebook_post_result (caption : string)
    (media : option (list string)) (schedule : option string)
    (l : Local FacebookPoster.t) (r : response) (rest : list (exn + response)) :
  authenticated (base (self l)) = true ->
  pending (lctx l) = inr r :: rest ->
  let run := FacebookPoster.create_post caption media schedule l in
  ((exists d, snd run = inr d)
   <-> status_in r [200; 201] = true /\ exists o, json r = inr (PDict o))
  /\ (forall o, status_in r [200; 201] = true -> json r = inr (PDict o) ->
      snd run = inr [("post_id", dict_get "id" o); ("success", PBool true);
                     ("platform", PStr "facebook")])
  /\ self (fst run) = self l.
Proof.
  intros Ha Hp. cbn in Ha.
  unfold FacebookPoster.create_post, status_in. cbn [existsb].
  run_monad. cbn. rewrite Ha. cbn. rewrite Hp. cbn.
  destruct ((status r =? 200) || ((status r =? 201) || false)) eqn:Hs; cbn.
  - destruct (json r) as [e | [| b | z | t | vs | o]] eqn:Hj; cbn;
      (split; [split; [intros [d Hd]; first [discriminate Hd | eauto]
                      | intros [_ [o' Ho']]; first [discriminate Ho' | eauto]]
              | split; [intros o' _ Ho'; first [discriminate Ho' | congruence]
                       | reflexivity]]).
  - destruct (json r) as [e | v]; cbn;
      (split; [split; [intros [d Hd]; discriminate Hd
                      | intros [Hf _]; discriminate Hf]
              | split; [intros o' Hf; discriminate Hf | reflexivity]]).
Qed.

(** X15. For every adapter but X, when the adapter's access-token
    variable is not set in the environment, [authenticate] without an
    explicit token fails with the missing-credentials error without
    sending a request, and leaves the flag false. *)
Theorem authenticate_without_token (p : platform_id) (k c : option string)
    (ap : option dict) (s : System) :
  p <> X ->
  assoc (token_variable p) (environ (ctx s)) = None ->
  snd (authenticate (poster_of p) None k c ap s)
  = inl (missing_credentials p)
  /\ sent (ctx (fst (authenticate (poster_of p) None k c ap s)))
     = sent (ctx s)
  /\ authenticated (base_of p (fst (authenticate (poster_of p) None k c ap s)))
     = false.
Proof.
  intros Hx Hv.
  destruct (authenticate_facts p None k c ap s eq_refl)
    as (Hflag & _ & Htok & Hmiss).
  cbn zeta in *. rewrite Hv in Htok. cbn [or_str truthy_str] in Htok.
  assert (Hc : credentials_complete p
                 (fst (authenticate (poster_of p) None k c ap s)) = false).
  { unfold credentials_complete. rewrite Htok. destruct p; try reflexivity.
    congruence. }
  destruct (proj2 Hmiss Hc) as [He Hs]. split; [exact He |].
  split; [exact Hs |].
  destruct (authenticated _) eqn:Hf; [| reflexivity].
  destruct (proj1 Hflag eq_refl) as [d Hd]. congruence.
Qed.

End AdapterEdges.

(** * Concrete runs on the reference deployment *)

#[local] Existing Instance Reference.runtime.
#[local] Existing Instance Reference.pydantic.
#[local] Existing Instance Reference.instagram_helpers.
#[local] Existing Instance Reference.tiktok_helpers.
#[local] Existing Instance Reference.x_helpers.
#[local] Existing Instance Reference.threads_helpers.

(** C4, as stated, at three inputs.  (1) Instagram is passed the token
    "T" explicitly but has no account id: the token is stored, and
    [authenticate] still fails with the missing-credentials error without
    sending a request.  (2) Facebook has stored the token "T" in an
    earlier successful call; a later call without a token, the
    environment holding none, does not use the stored one: it fails with
    the missing-credentials error and the stored token is gone.
    (3) Facebook is passed the empty string while the environment holds
    "E": the environment's token is used. *)
Lemma C4_counterexample :
  (snd Reference.instagram_without_account
   = inl (missing_credentials Instagram)
   /\ access_token (base_of Instagram (fst Reference.instagram_without_account))
      = Some "T"
   /\ sent (ctx (fst Reference.instagram_without_account)) = [])
  /\ (access_token (base_of Facebook (fst Reference.facebook_first)) = Some "T"
      /\ authenticated (base_of Facebook (fst Reference.facebook_first)) = true
      /\ snd Reference.facebook_second = inl (missing_credentials Facebook)
      /\ access_token (base_of Facebook (fst Reference.facebook_second)) = None)
  /\ access_token (base_of Facebook (fst Reference.facebook_empty_token))
     = Some "E".
Proof. vm_compute. repeat split. Qed.

(** C6, as stated, at [schedule_time = ""]: a schedule time is supplied,
    the identity check and the post are sent and accepted, and the form
    of the feed request carries neither [published] nor
    [scheduled_publish_time]. *)
Lemma C6_counterexample :
  map body (sent (ctx (fst Reference.scheduled_empty)))
  = [NoBody;
     FormData [("message", PStr "hello"); ("access_token", PStr "tok")]]
  /\ snd Reference.scheduled_empty
     = inr [("post_id", PStr "1_2"); ("success", PBool true);
            ("platform", PStr "facebook")]
  /\ assoc "published"
       [("message", PStr "hello"); ("access_token", PStr "tok")] = None
  /\ assoc "scheduled_publish_time"
       [("message", PStr "hello"); ("access_token", PStr "tok")] = None.
Proof. vm_compute. repeat split. Qed.

(** C8, as stated, at a run: YouTube is passed a token; the identity
    request goes out and the provider answers it with status 200 and an
    empty channel list.  The verification call succeeded, and the flag is
    false: [authenticate] raises. *)
Lemma C8_counterexample :
  sent (ctx (fst Reference.without_channel))
  = [identity_request YouTube (fst Reference.without_channel)]
  /\ status (Reference.channel_list []) = 200
  /\ json (Reference.channel_list []) = inr (PDict [("items", PList [])])
  /\ authenticated (base_of YouTube (fst Reference.without_channel)) = false
  /\ snd Reference.without_channel
     = inl "YouTube authentication error: No YouTube channel found".
Proof. vm_compute. repeat split. Qed.

(** C10, as stated, at two runs.  Facebook accepts the post and reports
    its id as the number 12345, respectively as an array: [create_post]
    returns that id as [post_id], the response refuses it, and the
    outcome recorded is the failure outcome with the validation error. *)
Lemma C10_counterexample :
  (snd (Reference.reported_post (PInt 12345))
   = inr [("post_id", PInt 12345); ("success", PBool true);
          ("platform", PStr "facebook")]
   /\ snd (Reference.reported_batch (PInt 12345))
      = inr [{| success := false; platform := "facebook"; post_id := None;
                message := "Failed to post to facebook";
                error := Some "Input should be a valid string" |}])
  /\ (snd (Reference.reported_post (PList [PStr "1_2"]))
      = inr [("post_id", PList [PStr "1_2"]); ("success", PBool true);
             ("platform", PStr "facebook")]
      /\ snd (Reference.reported_batch (PList [PStr "1_2"]))
         = inr [{| success := false; platform := "facebook"; post_id := None;
                   message := "Failed to post to facebook";
                   error := Some "Input should be a valid string" |}]).
Proof. vm_compute. repeat split. Qed.

(** C10 at a run of the reference deployment: Facebook accepts the post
    and the loop records the success outcome with the provider's id. *)
Lemma C10_witness :
  assoc "facebook" platform_posters = Some facebook
  /\ post_loop Reference.hello ["facebook"] [] Reference.facebook_ready
     = post_loop Reference.hello []
         [recorded_outcome "facebook" (snd Reference.hello_post)]
         (fst Reference.hello_post)
  /\ recorded_outcome "facebook" (snd Reference.hello_post)
     = {| success := true; platform := "facebook"; post_id := Some "1_2";
          message := "Successfully posted to facebook"; error := None |}.
Proof.
  split; [reflexivity |]. split; [| reflexivity].
  eapply proj1.
  apply (C10_outcome_of_create_post Reference.hello "facebook" [] []
           Reference.facebook_ready (poster:=facebook)).
  reflexivity.
Defined.

(** The YouTube adapter run on the one-line text "Title only": the
    metadata of the upload request has that text both as title and as
    description. *)
Example youtube_title_only_upload :
  map body (sent (ctx (fst Reference.title_only_post)))
  = [NoBody; NoBody;
     JsonBody (YouTubePoster.metadata "Title only" "Title only" "22"
                 "public" None);
     RawBody "video bytes"]
  /\ snd Reference.title_only_post
     = inr [("post_id", PStr "vid1"); ("success", PBool true);
            ("platform", PStr "youtube");
            ("video_url", PStr "https://www.youtube.com/watch?v=vid1")].
Proof. vm_compute. split; reflexivity. Qed.

(** ** Runs for the properties that have a precondition *)

Lemma single_is_batch_of_one_witness :
  supported "facebook" = true
  /\ exists s' o,
      post_to_single_platform "facebook" "hello" None None
        Reference.facebook_ready = (s', inr (Posted o))
      /\ post_to_platforms
           {| text := "hello"; platforms := ["facebook"];
              media_urls := None; schedule_time := None |}
           Reference.facebook_ready
         = (s', inr [o]).
Proof.
  split; [reflexivity |].
  apply single_is_batch_of_one.
  reflexivity.
Defined.

Lemma handlers_keep_credentials_sound_witness :
  credentials_sound Reference.facebook_ready
  /\ credentials_sound
       (fst (post_to_platforms Reference.hello Reference.facebook_ready))
  /\ authenticated
       (base_of Facebook
          (fst (post_to_platforms Reference.hello Reference.facebook_ready)))
     = true.
Proof.
  assert (Hs : credentials_sound Reference.facebook_ready)
    by (intros q; destruct q; discriminate).
  split; [exact Hs |]. split; [| vm_compute; reflexivity].
  exact (proj1 (handlers_keep_credentials_sound Hs) Reference.hello).
Defined.

Lemma create_post_without_media_witness :
  media_required YouTube = Some "YouTube requires a video URL"
  /\ authenticated (base_of YouTube Scenario.youtube_authenticated) = true
  /\ truthy_list (@None (list string)) = false
  /\ create_post (poster_of YouTube) "Title" None None
       Scenario.youtube_authenticated
     = (entered YouTube Scenario.youtube_authenticated,
        inl (post_error YouTube "YouTube requires a video URL")).
Proof.
  split; [reflexivity |]. split; [vm_compute; reflexivity |].
  split; [reflexivity |].
  apply create_post_without_media;
    [reflexivity | vm_compute; reflexivity | reflexivity].
Defined.


Lemma youtube_failed_download_witness :
  authenticated
    (base (self (Scenario.youtube_facing [inr Scenario.not_found]))) = true
  /\ pending (lctx (Scenario.youtube_facing [inr Scenario.not_found]))
     = [inr Scenario.not_found]
  /\ status Scenario.not_found <> 200
  /\ snd (YouTubePoster.create_post "Title"
            (Some ["https://cdn.example/v.mp4"]) None
            (Scenario.youtube_facing [inr Scenario.not_found]))
     = inl "YouTube post error: Video upload error: Failed to download video".
Proof.
  split; [vm_compute; reflexivity |]. split; [reflexivity |].
  split; [vm_compute; discriminate |].
  eapply proj1. eapply youtube_failed_download;
    [vm_compute; reflexivity | reflexivity | vm_compute; discriminate].
Defined.

Lemma facebook_post_result_witness :
  authenticated
    (base (self (Scenario.facebook_facing [inr Scenario.created]))) = true
  /\ pending (lctx (Scenario.facebook_facing [inr Scenario.created]))
     = [inr Scenario.created]
  /\ self (fst (FacebookPoster.create_post "hello" None None
                  (Scenario.facebook_facing [inr Scenario.created])))
     = self (Scenario.facebook_facing [inr Scenario.created]).
Proof.
  split; [vm_compute; reflexivity |]. split; [reflexivity |].
  eapply proj2. eapply proj2. eapply facebook_post_result;
    [vm_compute; reflexivity | reflexivity].
Defined.

Lemma authenticate_without_token_witness :
  Facebook <> X
  /\ assoc (token_variable Facebook) (environ (ctx (startup [] []))) = None
  /\ snd (authenticate (poster_of Facebook) None None None None
            (startup [] []))
     = inl (missing_credentials Facebook).
Proof.
  split; [discriminate |]. split; [reflexivity |].
  eapply proj1. eapply authenticate_without_token;
    [discriminate | reflexivity].
Defined.
